(** * Salvium Guardian: escrow session lifecycle

    A shallow embedding of the guardian server (the Express application with
    its three process-wide maps, the cleanup timer and the eight routes) and
    the properties of its session state machine.

    Modelling conventions.
    - A request body is the decoded JSON record.  Identifiers and protocol
      payloads are strings, block heights are integers; a field that is
      absent from the body is [None] (JavaScript [undefined]).
    - A JavaScript [Map] is an insertion-ordered association list with
      unique keys ([JsMap]).
    - A wallet object is a [handle]; the WASM instance that owns every
      wallet is an abstract state [G] threaded through each method call.
      Every call of [wallet.delete()] is recorded in [deleted], and every
      line the routes and the timer write to the console in [console].
    - A wallet method whose JSON result the server parses may return
      [{success: true, ...}], return [{success: false, error}], or throw.
      The constructor, [create_random], [enable_multisig_experimental],
      [get_seed], [delete] and the write of [bounties.json] are taken not
      to throw.
    - [Date.now()] and [new Date().toISOString()] are inputs of the
      operation that reads them.
    - The routes are [async] functions without [await]: each runs to its
      end before the next event is served, so an event is one step. *)

From Stdlib Require Import ZArith List String Bool Lia DecimalString.
Import ListNotations.

Set Warnings "-register-all".

Open Scope string_scope.
Open Scope Z_scope.

(** ** JSON values sent in responses *)

Inductive json : Type :=
| JNull
| JBool (b : bool)
| JNum (n : Z)
| JStr (s : string)
| JArr (items : list json)
| JObj (fields : list (string * json)).

Record response : Type := mkResponse {
  status : Z;
  body : json
}.

(** [res.json(o)] answers with status 200, [res.status(c).json(o)] with [c]. *)
Definition res_json (fields : list (string * json)) : response :=
  mkResponse 200 (JObj fields).

Definition res_status_json (code : Z) (fields : list (string * json)) : response :=
  mkResponse code (JObj fields).

(** The names of the members of a JSON object, at every depth. *)
Fixpoint json_keys (j : json) : list string :=
  match j with
  | JArr items => flat_map json_keys items
  | JObj fields =>
      (fix members (l : list (string * json)) : list string :=
         match l with
         | [] => []
         | (k, v) :: rest => k :: json_keys v ++ members rest
         end) fields
  | _ => []
  end.

(** ** JavaScript truthiness of the request fields *)

(** [!x] for a field holding a string or [undefined]. *)
Definition not_str (x : option string) : bool :=
  match x with
  | None => true
  | Some s => String.eqb s ""
  end.

(** [!x] for a field holding a number or [undefined]. *)
Definition not_num (x : option Z) : bool :=
  match x with
  | None => true
  | Some n => Z.eqb n 0
  end.

(** [x === undefined]. *)
Definition is_undefined {A : Type} (x : option A) : bool :=
  match x with
  | None => true
  | Some _ => false
  end.

(** The value read from a field once the guard has established it. *)
Definition str_val (x : option string) : string :=
  match x with Some s => s | None => "" end.

Definition num_val (x : option Z) : Z :=
  match x with Some n => n | None => 0 end.

(** Rendering of a number and of a boolean inside a template literal. *)
Definition show_Z (n : Z) : string := NilZero.string_of_int (Z.to_int n).

Definition show_bool (b : bool) : string := if b then "true" else "false".

(** ** Insertion-ordered maps with string keys *)

Module JsMap.

Definition t (V : Type) : Type := list (string * V).

Definition empty {V : Type} : t V := [].

Fixpoint get {V : Type} (k : string) (m : t V) : option V :=
  match m with
  | [] => None
  | (k', v) :: rest => if String.eqb k k' then Some v else get k rest
  end.

Definition has {V : Type} (k : string) (m : t V) : bool :=
  match get k m with Some _ => true | None => false end.

(** [set] keeps the position of a key that is present and appends a new one. *)
Fixpoint set {V : Type} (k : string) (v : V) (m : t V) : t V :=
  match m with
  | [] => [(k, v)]
  | (k', v') :: rest =>
      if String.eqb k k' then (k', v) :: rest else (k', v') :: set k v rest
  end.

Fixpoint delete {V : Type} (k : string) (m : t V) : t V :=
  match m with
  | [] => []
  | (k', v') :: rest =>
      if String.eqb k k' then delete k rest else (k', v') :: delete k rest
  end.

Definition size {V : Type} (m : t V) : Z := Z.of_nat (List.length m).

Definition keys {V : Type} (m : t V) : list string := map fst m.

Definition values {V : Type} (m : t V) : list V := map snd m.

End JsMap.

(** ** The WASM wallet engine *)

Definition handle : Type := nat.

(** A method call either returns or throws. *)
Inductive outcome (A : Type) : Type :=
| Returned (a : A)
| Threw (message : string).
Arguments Returned {A} a.
Arguments Threw {A} message.

(** The parsed JSON result of a wallet method: [{success: true, ...}] or
    [{success: false, error}]. *)
Inductive result (A : Type) : Type :=
| Success (a : A)
| Failure (error : string).
Arguments Success {A} a.
Arguments Failure {A} error.

Record kex_result : Type := mkKex {
  kex_address : string;
  kex_is_ready : bool
}.

Record sign_result : Type := mkSigned {
  signed_tx_data_hex : string;
  signed_signers : json;
  signed_ready : bool
}.

(** The methods of [wasmModule.WasmWallet] used by the server.  A list
    argument stands for its [JSON.stringify] text; a method whose result the
    server parses returns the parsed object, and [Threw] covers an exception
    of the call or of [JSON.parse]. *)
Record WasmModule (G : Type) : Type := mkWasm {
  WasmWallet : G -> handle -> G;
  create_random : G -> handle -> string -> string -> G;
  enable_multisig_experimental : G -> handle -> G;
  prepare_multisig : G -> handle -> outcome (result string) * G;
  make_multisig :
    G -> handle -> string -> Z -> list string -> outcome (result string) * G;
  exchange_multisig_keys :
    G -> handle -> string -> list string -> outcome (result kex_result) * G;
  get_seed : G -> handle -> string -> string;
  export_multisig_info : G -> handle -> outcome (result string) * G;
  import_multisig_info :
    G -> handle -> list string -> outcome (result Z) * G;
  has_describe_multisig_tx_hex : bool;
  describe_multisig_tx_hex : G -> handle -> string -> outcome string * G;
  has_sign_multisig_tx_hex : bool;
  sign_multisig_tx_hex :
    G -> handle -> string -> outcome (result sign_result) * G;
  wallet_delete : G -> handle -> G
}.
Arguments WasmWallet {G} _ _ _.
Arguments create_random {G} _ _ _ _ _.
Arguments enable_multisig_experimental {G} _ _ _.
Arguments prepare_multisig {G} _ _ _.
Arguments make_multisig {G} _ _ _ _ _ _.
Arguments exchange_multisig_keys {G} _ _ _ _ _.
Arguments get_seed {G} _ _ _ _.
Arguments export_multisig_info {G} _ _ _.
Arguments import_multisig_info {G} _ _ _ _.
Arguments has_describe_multisig_tx_hex {G} _.
Arguments describe_multisig_tx_hex {G} _ _ _ _.
Arguments has_sign_multisig_tx_hex {G} _.
Arguments sign_multisig_tx_hex {G} _ _ _ _.
Arguments wallet_delete {G} _ _ _.

(** ** Server state *)

(** An entry of [pendingEscrows]. *)
Record pendingEscrow : Type := mkPending {
  wallet : handle;
  guardian_round1 : string;
  p_created_at : Z
}.

(** An entry of [bountyData], also the record written to [bounties.json]. *)
Record bountyInfo : Type := mkBounty {
  b_bounty_id : string;
  deadline_block : Z;
  multisig_address : string;
  is_ready : bool;
  created_at : string;
  wallet_mnemonic : string
}.

Record state (G : Type) : Type := mkState {
  isInitialized : bool;
  wasm : G;
  next_wallet : handle;
  pendingEscrows : JsMap.t pendingEscrow;
  bountyData : JsMap.t bountyInfo;
  activeWallets : JsMap.t handle;
  bounties_json : JsMap.t bountyInfo;
  deleted : list handle;
  console : list string
}.
Arguments mkState {G} _ _ _ _ _ _ _ _ _.
Arguments isInitialized {G} _.
Arguments wasm {G} _.
Arguments next_wallet {G} _.
Arguments pendingEscrows {G} _.
Arguments bountyData {G} _.
Arguments activeWallets {G} _.
Arguments bounties_json {G} _.
Arguments deleted {G} _.
Arguments console {G} _.

(** Configuration: [NETWORK] defaults to mainnet. *)
Definition NETWORK : string := "mainnet".

(** The time-to-live of a pending escrow and the period of the sweep timer,
    in milliseconds. *)
Definition PENDING_TTL_MS : Z := 5 * 60 * 1000.
Definition SWEEP_PERIOD_MS : Z := 60 * 1000.

(** ** Request bodies *)

Record init_body : Type := mkInitBody {
  ib_bounty_id : option string
}.

Record finalize_body : Type := mkFinalizeBody {
  fb_bounty_id : option string;
  fb_deadline_block : option Z;
  fb_server_round1 : option string;
  fb_server_round2 : option string;
  fb_worker_round1 : option string;
  fb_worker_round2 : option string
}.

(** [other_multisig_info] is [Some l] when the field holds an array and
    [None] when it is absent or holds anything else. *)
Record sync_body : Type := mkSyncBody {
  sb_bounty_id : option string;
  sb_other_multisig_info : option (list string)
}.

Record refund_body : Type := mkRefundBody {
  rb_bounty_id : option string;
  rb_current_block : option Z;
  rb_tx_data_hex : option string
}.

Record payout_body : Type := mkPayoutBody {
  pb_bounty_id : option string;
  pb_tx_data_hex : option string;
  pb_reason : option string
}.

(** ** Field updates of the state *)

Section Updates.
Context {G : Type}.

Definition set_wasm (g : G) (s : state G) : state G :=
  mkState (isInitialized s) g (next_wallet s) (pendingEscrows s)
    (bountyData s) (activeWallets s) (bounties_json s) (deleted s) (console s).

Definition set_next_wallet (n : handle) (s : state G) : state G :=
  mkState (isInitialized s) (wasm s) n (pendingEscrows s)
    (bountyData s) (activeWallets s) (bounties_json s) (deleted s) (console s).

Definition set_pendingEscrows (m : JsMap.t pendingEscrow) (s : state G) : state G :=
  mkState (isInitialized s) (wasm s) (next_wallet s) m
    (bountyData s) (activeWallets s) (bounties_json s) (deleted s) (console s).

Definition set_bountyData (m : JsMap.t bountyInfo) (s : state G) : state G :=
  mkState (isInitialized s) (wasm s) (next_wallet s) (pendingEscrows s)
    m (activeWallets s) (bounties_json s) (deleted s) (console s).

Definition set_activeWallets (m : JsMap.t handle) (s : state G) : state G :=
  mkState (isInitialized s) (wasm s) (next_wallet s) (pendingEscrows s)
    (bountyData s) m (bounties_json s) (deleted s) (console s).

(** [console.log] and [console.error]: one line per call. *)
Definition log (line : string) (s : state G) : state G :=
  mkState (isInitialized s) (wasm s) (next_wallet s) (pendingEscrows s)
    (bountyData s) (activeWallets s) (bounties_json s) (deleted s)
    (console s ++ [line]).

(** [saveBountyState]: the file is rewritten with the whole of [bountyData]. *)
Definition saveBountyState (s : state G) : state G :=
  mkState (isInitialized s) (wasm s) (next_wallet s) (pendingEscrows s)
    (bountyData s) (activeWallets s) (bountyData s) (deleted s) (console s).

(** The [catch] clause of a route: log the error, answer 500 with its
    message. *)
Definition catch (prefix message : string) (s : state G)
  : response * state G :=
  (res_status_json 500 [("error", JStr message)],
   log (prefix ++ " Error: " ++ message) s).

End Updates.

(** ** The routes and the cleanup timer *)

Section Server.
Context {G : Type} (W : WasmModule G).

(** [w.delete()]: the engine frees the wallet; the call is recorded. *)
Definition delete_wallet (w : handle) (s : state G) : state G :=
  mkState (isInitialized s) (wallet_delete W (wasm s) w) (next_wallet s)
    (pendingEscrows s) (bountyData s) (activeWallets s) (bounties_json s)
    (deleted s ++ [w]) (console s).

(** One iteration of the timer's loop over [pendingEscrows]. *)
Definition cleanup_entry (now : Z) (s : state G) (entry : string * pendingEscrow)
  : state G :=
  let (id, escrow) := entry in
  if now - p_created_at escrow >? PENDING_TTL_MS then
    let s1 := log ("[Guardian] Cleaning up stale pending escrow: " ++ id) s in
    let s2 := delete_wallet (wallet escrow) s1 in
    set_pendingEscrows (JsMap.delete id (pendingEscrows s2)) s2
  else s.

(** The callback of [setInterval], run with [Date.now() = now].  Deleting
    the current entry of a [Map] during iteration does not disturb the
    visit of the remaining ones, so the loop is a fold over the entries
    present when it starts. *)
Definition cleanup (now : Z) (s : state G) : state G :=
  fold_left (cleanup_entry now) (pendingEscrows s) s.

Definition not_initialized : response :=
  res_status_json 503 [("error", JStr "Guardian not initialized")].

(** GET /health *)
Definition health (s : state G) : response :=
  res_json [("status", JStr "ok");
            ("initialized", JBool (isInitialized s));
            ("pendingEscrows", JNum (JsMap.size (pendingEscrows s)));
            ("completedBounties", JNum (JsMap.size (bountyData s)))].

(** POST /init-escrow, with [Date.now() = now] when the entry is stored. *)
Definition init_escrow (now : Z) (req : init_body) (s : state G)
  : response * state G :=
  if negb (isInitialized s) then (not_initialized, s) else
  let bounty_id := ib_bounty_id req in
  if not_str bounty_id then
    (res_status_json 400
       [("error", JStr "Missing required field: bounty_id")], s)
  else
  let id := str_val bounty_id in
  if JsMap.has id (bountyData s) then
    (res_status_json 409 [("error", JStr "Bounty already finalized")], s)
  else
  let s1 :=
    match JsMap.get id (pendingEscrows s) with
    | Some old =>
        let s' := delete_wallet (wallet old) s in
        set_pendingEscrows (JsMap.delete id (pendingEscrows s')) s'
    | None => s
    end in
  let s2 := log ("[Guardian] Init escrow: " ++ id) s1 in
  let w := next_wallet s2 in
  let g1 := WasmWallet W (wasm s2) w in
  let g2 := create_random W g1 w NETWORK "English" in
  let g3 := enable_multisig_experimental W g2 w in
  let (prepResult, g4) := prepare_multisig W g3 w in
  let s3 := set_wasm g4 (set_next_wallet (S w) s2) in
  match prepResult with
  | Threw message => catch "[Guardian] Init escrow error:" message s3
  | Returned (Failure error) =>
      catch "[Guardian] Init escrow error:"
        ("Failed to prepare multisig: " ++ error) (delete_wallet w s3)
  | Returned (Success multisig_info) =>
      let s4 :=
        set_pendingEscrows
          (JsMap.set id (mkPending w multisig_info now) (pendingEscrows s3))
          s3 in
      (res_json [("success", JBool true);
                 ("bounty_id", JStr id);
                 ("guardian_round1", JStr multisig_info)], s4)
  end.

(** The required-field guard of POST /finalize-escrow. *)
Definition finalize_missing (req : finalize_body) : bool :=
  not_str (fb_bounty_id req) || not_num (fb_deadline_block req)
  || not_str (fb_server_round1 req) || not_str (fb_server_round2 req)
  || not_str (fb_worker_round1 req) || not_str (fb_worker_round2 req).

Definition finalize_missing_response : response :=
  res_status_json 400
    [("error", JStr "Missing required fields: bounty_id, deadline_block, server_round1, server_round2, worker_round1, worker_round2")].

Definition finalize_not_found : response :=
  res_status_json 404
    [("error", JStr "Pending escrow not found. Call /init-escrow first.");
     ("hint", JStr "The escrow may have expired (5 min timeout) or server restarted.")].

(** POST /finalize-escrow, with [new Date().toISOString() = iso_now]. *)
Definition finalize_escrow (iso_now : string) (req : finalize_body)
    (s : state G) : response * state G :=
  if negb (isInitialized s) then (not_initialized, s) else
  if finalize_missing req then (finalize_missing_response, s) else
  let bounty_id := str_val (fb_bounty_id req) in
  let deadline := num_val (fb_deadline_block req) in
  let server_round1 := str_val (fb_server_round1 req) in
  let server_round2 := str_val (fb_server_round2 req) in
  let worker_round1 := str_val (fb_worker_round1 req) in
  let worker_round2 := str_val (fb_worker_round2 req) in
  match JsMap.get bounty_id (pendingEscrows s) with
  | None => (finalize_not_found, s)
  | Some pending =>
      let s1 := log ("[Guardian] Finalize escrow: " ++ bounty_id) s in
      let w := wallet pending in
      let round1 := guardian_round1 pending in
      let allRound1 := [round1; server_round1; worker_round1] in
      let (makeResult, g1) := make_multisig W (wasm s1) w "" 2 allRound1 in
      let s2 := set_wasm g1 s1 in
      match makeResult with
      | Threw message =>
          catch "[Guardian] Finalize escrow error:" message s2
      | Returned (Failure error) =>
          catch "[Guardian] Finalize escrow error:"
            ("Failed to make multisig: " ++ error) s2
      | Returned (Success guardian_round2) =>
          let allRound2 := [guardian_round2; server_round2; worker_round2] in
          let (kexResult, g2) :=
            exchange_multisig_keys W (wasm s2) w "" allRound2 in
          let s3 := set_wasm g2 s2 in
          match kexResult with
          | Threw message =>
              catch "[Guardian] Finalize escrow error:" message s3
          | Returned (Failure error) =>
              catch "[Guardian] Finalize escrow error:"
                ("Failed to exchange keys: " ++ error) s3
          | Returned (Success kex) =>
              let address := kex_address kex in
              let s4 := log ("[Guardian] Escrow finalized: " ++ address) s3 in
              let s5 :=
                set_pendingEscrows
                  (JsMap.delete bounty_id (pendingEscrows s4)) s4 in
              let info :=
                mkBounty bounty_id deadline address (kex_is_ready kex)
                  iso_now (get_seed W (wasm s5) w "") in
              let s6 :=
                set_bountyData (JsMap.set bounty_id info (bountyData s5)) s5 in
              let s7 := saveBountyState s6 in
              let s8 :=
                set_activeWallets
                  (JsMap.set bounty_id w (activeWallets s7)) s7 in
              (res_json [("success", JBool true);
                         ("bounty_id", JStr bounty_id);
                         ("guardian_round1", JStr round1);
                         ("guardian_round2", JStr guardian_round2);
                         ("multisig_address", JStr address);
                         ("is_ready", JBool (kex_is_ready kex))], s8)
          end
      end
  end.

Definition bounty_not_found : response :=
  res_status_json 404 [("error", JStr "Bounty not found")].

Definition wallet_not_in_memory (bounty_id : string) : response :=
  res_status_json 400
    [("error", JStr "Wallet not in memory. Use CLI for manual recovery.");
     ("hint", JStr ("docker exec salvium-guardian node cli.js export-bounty-seed " ++ bounty_id))].

(** POST /sync-outputs *)
Definition sync_outputs (req : sync_body) (s : state G)
  : response * state G :=
  if negb (isInitialized s) then (not_initialized, s) else
  if not_str (sb_bounty_id req) then
    (res_status_json 400
       [("error", JStr "Missing required field: bounty_id")], s)
  else
  let bounty_id := str_val (sb_bounty_id req) in
  match JsMap.get bounty_id (bountyData s) with
  | None => (bounty_not_found, s)
  | Some bountyInfo =>
      match JsMap.get bounty_id (activeWallets s) with
      | None => (wallet_not_in_memory bounty_id, s)
      | Some w =>
          let (exportResult, g1) := export_multisig_info W (wasm s) w in
          let s1 := set_wasm g1 s in
          match exportResult with
          | Threw message =>
              catch "[Guardian] Sync outputs error:" message s1
          | Returned (Failure error) =>
              catch "[Guardian] Sync outputs error:"
                ("Failed to export multisig info: " ++ error) s1
          | Returned (Success guardian_multisig_info) =>
              let ok :=
                res_json [("success", JBool true);
                          ("bounty_id", JStr bounty_id);
                          ("guardian_multisig_info",
                           JStr guardian_multisig_info)] in
              match sb_other_multisig_info req with
              | None => (ok, s1)
              | Some other_multisig_info =>
                  let (importResult, g2) :=
                    import_multisig_info W (wasm s1) w other_multisig_info in
                  let s2 := set_wasm g2 s1 in
                  match importResult with
                  | Threw message =>
                      catch "[Guardian] Sync outputs error:" message s2
                  | Returned (Failure error) =>
                      (ok,
                       log ("[Guardian] Import multisig info warning: "
                            ++ error) s2)
                  | Returned (Success n_outputs) =>
                      (ok,
                       log ("[Guardian] Imported " ++ show_Z n_outputs
                            ++ " outputs for bounty " ++ bounty_id) s2)
                  end
              end
          end
      end
  end.

(** The two signing routes share the describe-then-sign sequence and
    differ in the texts they log and send. *)
Inductive signing : Type := Refund | Payout.

Definition describe_line (k : signing) (bounty_id : string) : string :=
  match k with
  | Refund => "[Guardian] Refund tx for bounty " ++ bounty_id ++ ":"
  | Payout => "[Guardian] Payout tx details:"
  end.

Definition sign_not_available (k : signing) : response :=
  match k with
  | Refund =>
      res_status_json 501
        [("error", JStr "sign_multisig_tx_hex not available in WASM");
         ("hint", JStr "Update WASM to version with multisig transaction support")]
  | Payout =>
      res_status_json 501
        [("error", JStr "sign_multisig_tx_hex not available in WASM")]
  end.

Definition signing_name (k : signing) : string :=
  match k with Refund => "refund" | Payout => "payout" end.

Definition sign_catch_prefix (k : signing) : string :=
  "[Guardian] Sign " ++ signing_name k ++ " error:".

(** From the comment "Describe the transaction" to the end of the [try]
    block of POST /sign-refund and POST /sign-payout. *)
Definition describe_and_sign (k : signing) (bounty_id tx_data_hex : string)
    (w : handle) (s : state G) : response * state G :=
  let described : outcome unit * state G :=
    if has_describe_multisig_tx_hex W then
      let (descResult, g1) :=
        describe_multisig_tx_hex W (wasm s) w tx_data_hex in
      match descResult with
      | Threw message => (Threw message, set_wasm g1 s)
      | Returned desc =>
          (Returned tt,
           log (describe_line k bounty_id ++ " " ++ desc) (set_wasm g1 s))
      end
    else (Returned tt, s) in
  let (d, s1) := described in
  match d with
  | Threw message => catch (sign_catch_prefix k) message s1
  | Returned _ =>
      if negb (has_sign_multisig_tx_hex W) then (sign_not_available k, s1)
      else
        let (signResult, g2) :=
          sign_multisig_tx_hex W (wasm s1) w tx_data_hex in
        let s2 := set_wasm g2 s1 in
        match signResult with
        | Threw message => catch (sign_catch_prefix k) message s2
        | Returned (Failure error) =>
            catch (sign_catch_prefix k)
              ("Failed to sign " ++ signing_name k ++ ": " ++ error) s2
        | Returned (Success signed) =>
            (res_json [("success", JBool true);
                       ("bounty_id", JStr bounty_id);
                       ("tx_data_hex", JStr (signed_tx_data_hex signed));
                       ("signers", signed_signers signed);
                       ("ready", JBool (signed_ready signed))],
             log ("[Guardian] Signed " ++ signing_name k ++ " for bounty "
                  ++ bounty_id ++ ", ready: "
                  ++ show_bool (signed_ready signed)) s2)
        end
  end.

Definition refund_missing (req : refund_body) : bool :=
  not_str (rb_bounty_id req) || is_undefined (rb_current_block req)
  || not_str (rb_tx_data_hex req).

Definition deadline_not_reached (current_block deadline : Z) : response :=
  res_status_json 403
    [("error", JStr "Deadline not reached");
     ("current_block", JNum current_block);
     ("deadline_block", JNum deadline);
     ("blocks_remaining", JNum (deadline - current_block))].

(** POST /sign-refund *)
Definition sign_refund (req : refund_body) (s : state G)
  : response * state G :=
  if negb (isInitialized s) then (not_initialized, s) else
  if refund_missing req then
    (res_status_json 400
       [("error", JStr "Missing required fields: bounty_id, current_block, tx_data_hex")],
     s)
  else
  let bounty_id := str_val (rb_bounty_id req) in
  let current_block := num_val (rb_current_block req) in
  let tx_data_hex := str_val (rb_tx_data_hex req) in
  match JsMap.get bounty_id (bountyData s) with
  | None => (bounty_not_found, s)
  | Some bountyInfo =>
      if current_block <? deadline_block bountyInfo then
        (deadline_not_reached current_block (deadline_block bountyInfo), s)
      else
        match JsMap.get bounty_id (activeWallets s) with
        | None => (wallet_not_in_memory bounty_id, s)
        | Some w => describe_and_sign Refund bounty_id tx_data_hex w s
        end
  end.

(** POST /sign-payout *)
Definition sign_payout (req : payout_body) (s : state G)
  : response * state G :=
  if negb (isInitialized s) then (not_initialized, s) else
  if not_str (pb_bounty_id req) || not_str (pb_tx_data_hex req) then
    (res_status_json 400
       [("error", JStr "Missing required fields: bounty_id, tx_data_hex")],
     s)
  else
  let bounty_id := str_val (pb_bounty_id req) in
  let tx_data_hex := str_val (pb_tx_data_hex req) in
  match JsMap.get bounty_id (bountyData s) with
  | None => (bounty_not_found, s)
  | Some bountyInfo =>
      match JsMap.get bounty_id (activeWallets s) with
      | None => (wallet_not_in_memory bounty_id, s)
      | Some w =>
          let reason :=
            if not_str (pb_reason req) then "none provided"
            else str_val (pb_reason req) in
          let s1 :=
            log ("[Guardian] Payout request for bounty " ++ bounty_id
                 ++ ", reason: " ++ reason) s in
          describe_and_sign Payout bounty_id tx_data_hex w s1
      end
  end.

(** GET /bounty/:id *)
Definition get_bounty (id : string) (s : state G) : response :=
  match JsMap.get id (bountyData s) with
  | None =>
      if JsMap.has id (pendingEscrows s) then
        res_json [("bounty_id", JStr id);
                  ("status", JStr "pending");
                  ("message", JStr "Waiting for /finalize-escrow")]
      else bounty_not_found
  | Some bountyInfo =>
      res_json [("bounty_id", JStr (b_bounty_id bountyInfo));
                ("deadline_block", JNum (deadline_block bountyInfo));
                ("multisig_address", JStr (multisig_address bountyInfo));
                ("is_ready", JBool (is_ready bountyInfo));
                ("created_at", JStr (created_at bountyInfo));
                ("wallet_in_memory", JBool (JsMap.has id (activeWallets s)))]
  end.

Definition bounty_summary (entry : string * bountyInfo) : json :=
  let (id, info) := entry in
  JObj [("bounty_id", JStr id);
        ("deadline_block", JNum (deadline_block info));
        ("multisig_address", JStr (multisig_address info));
        ("is_ready", JBool (is_ready info));
        ("created_at", JStr (created_at info))].

(** GET /bounties *)
Definition get_bounties (s : state G) : response :=
  let bounties := map bounty_summary (bountyData s) in
  res_json [("pending", JNum (JsMap.size (pendingEscrows s)));
            ("completed", JNum (Z.of_nat (List.length bounties)));
            ("bounties", JArr bounties)].

(** *** The server as a transition system *)

(** What the process can be asked to do once it listens: the eight routes
    and a tick of the cleanup timer. *)
Inductive event : Type :=
| Health
| InitEscrow (now : Z) (req : init_body)
| FinalizeEscrow (iso_now : string) (req : finalize_body)
| SyncOutputs (req : sync_body)
| SignRefund (req : refund_body)
| SignPayout (req : payout_body)
| GetBounty (id : string)
| GetBounties
| Cleanup (now : Z).

(** The response is [None] for the timer, which answers nobody. *)
Definition step (e : event) (s : state G) : option response * state G :=
  match e with
  | Health => (Some (health s), s)
  | InitEscrow now req =>
      let (r, s') := init_escrow now req s in (Some r, s')
  | FinalizeEscrow iso_now req =>
      let (r, s') := finalize_escrow iso_now req s in (Some r, s')
  | SyncOutputs req => let (r, s') := sync_outputs req s in (Some r, s')
  | SignRefund req => let (r, s') := sign_refund req s in (Some r, s')
  | SignPayout req => let (r, s') := sign_payout req s in (Some r, s')
  | GetBounty id => (Some (get_bounty id s), s)
  | GetBounties => (Some (get_bounties s), s)
  | Cleanup now => (None, cleanup now s)
  end.

(** [loadBountyState]: every entry of the file is [set] into [bountyData]. *)
Definition loadBountyState (file : JsMap.t bountyInfo)
  : JsMap.t bountyInfo :=
  fold_left (fun m (e : string * bountyInfo) => JsMap.set (fst e) (snd e) m)
    file JsMap.empty.

(** The state in which [main] starts to listen: the engine is loaded, the
    file has been read, the other maps are as the module created them. *)
Definition boot (g : G) (file : JsMap.t bountyInfo) : state G :=
  mkState true g 0%nat JsMap.empty (loadBountyState file) JsMap.empty file
    [] [].

Inductive reachable : state G -> Prop :=
| reach_boot : forall g file, reachable (boot g file)
| reach_step : forall e s, reachable s -> reachable (snd (step e s)).

(** The state after a list of events, and the responses on the way. *)
Fixpoint run (es : list event) (s : state G) : list (option response) * state G :=
  match es with
  | [] => ([], s)
  | e :: rest =>
      let (r, s1) := step e s in
      let (rs, s2) := run rest s1 in
      (r :: rs, s2)
  end.

End Server.

(** ** Erasing the recovery seeds *)

Definition erase_seed (b : bountyInfo) : bountyInfo :=
  mkBounty (b_bounty_id b) (deadline_block b) (multisig_address b)
    (is_ready b) (created_at b) "".

Definition erase_seeds (m : JsMap.t bountyInfo) : JsMap.t bountyInfo :=
  map (fun e : string * bountyInfo => (fst e, erase_seed (snd e))) m.

(** The state with every stored seed blanked, in memory and in the file. *)
Definition erase {G : Type} (s : state G) : state G :=
  mkState (isInitialized s) (wasm s) (next_wallet s) (pendingEscrows s)
    (erase_seeds (bountyData s)) (activeWallets s)
    (erase_seeds (bounties_json s)) (deleted s) (console s).

(** The engine whose [get_seed] exports nothing; every other method is
    that of [W]. *)
Definition seedless {G : Type} (W : WasmModule G) : WasmModule G :=
  mkWasm G (WasmWallet W) (create_random W) (enable_multisig_experimental W)
    (prepare_multisig W) (make_multisig W) (exchange_multisig_keys W)
    (fun _ _ _ => "") (export_multisig_info W) (import_multisig_info W)
    (has_describe_multisig_tx_hex W) (describe_multisig_tx_hex W)
    (has_sign_multisig_tx_hex W) (sign_multisig_tx_hex W) (wallet_delete W).

(** ** A deterministic engine for concrete runs *)

Module TestDouble.

(** Its state counts the method calls made so far.  A list of payloads
    that contains the text [bad] is rejected by the method that receives
    it. *)
Definition tag (h : handle) : string := show_Z (Z.of_nat h).

Definition bad (l : list string) : bool := existsb (String.eqb "bad") l.

Definition engine : WasmModule nat :=
  mkWasm nat
    (fun g _ => S g)
    (fun g _ _ _ => S g)
    (fun g _ => S g)
    (fun g h => (Returned (Success ("round1-" ++ tag h)), S g))
    (fun g h _ _ l =>
       (if bad l then Returned (Failure "bad round1")
        else Returned (Success ("round2-" ++ tag h)), S g))
    (fun g h _ l =>
       (if bad l then Returned (Failure "bad round2")
        else Returned (Success (mkKex ("addr-" ++ String.concat "+" l) true)),
        S g))
    (fun _ h _ => "seed-" ++ tag h)
    (fun g h => (Returned (Success ("export-" ++ tag h)), S g))
    (fun g _ l =>
       (if bad l then Returned (Failure "bad info")
        else Returned (Success (Z.of_nat (List.length l))), S g))
    true
    (fun g _ tx => (Returned ("tx " ++ tx), S g))
    true
    (fun g h tx =>
       (Returned (Success (mkSigned tx (JArr [JStr (tag h)]) false)), S g))
    (fun g _ => S g).

Definition b1 : init_body := mkInitBody (Some "b1").

Definition finalize_b1 (deadline : Z) (server_round1 : string)
  : finalize_body :=
  mkFinalizeBody (Some "b1") (Some deadline) (Some server_round1)
    (Some "s2") (Some "w1") (Some "w2").

(** The server after [begin] for [b1] at time 1000. *)
Definition begun : state nat :=
  snd (step engine (InitEscrow 1000 b1) (boot 0%nat [])).

(** The server after [b1] was finalized with deadline 1000000. *)
Definition finalized : state nat :=
  snd (step engine (FinalizeEscrow "2026-01-01T00:00:00.000Z"
                      (finalize_b1 1000000 "s1")) begun).

(** The entry stored by that [begin], and the record stored by that
    [finalize]. *)
Definition b1_pending : pendingEscrow := mkPending 0%nat "round1-0" 1000.

Definition b1_info : bountyInfo :=
  mkBounty "b1" 1000000 "addr-round2-0+s2+w2" true
    "2026-01-01T00:00:00.000Z" "seed-0".

Definition refund_b1 (current_block : Z) : refund_body :=
  mkRefundBody (Some "b1") (Some current_block) (Some "ab").

End TestDouble.

(** ** Well-formed states *)

Definition pending_wallets {G : Type} (s : state G) : list handle :=
  map wallet (JsMap.values (pendingEscrows s)).

(** What every state of the running server satisfies: it is initialized;
    the keys of [pendingEscrows] are distinct, non-empty and absent from
    [bountyData]; the keys of [activeWallets] are non-empty; the wallets
    of the pending escrows are distinct objects, created before
    [next_wallet] and not deleted; deleted wallets were created before
    [next_wallet]. *)
Record wf {G : Type} (s : state G) : Prop := mk_wf {
  wf_initialized : isInitialized s = true;
  wf_pending_keys : NoDup (JsMap.keys (pendingEscrows s));
  wf_pending_ids : ~ In "" (JsMap.keys (pendingEscrows s));
  wf_active_ids : ~ In "" (JsMap.keys (activeWallets s));
  wf_disjoint :
    forall id, In id (JsMap.keys (pendingEscrows s)) ->
               JsMap.get id (bountyData s) = None;
  wf_wallets : NoDup (pending_wallets s);
  wf_allocated :
    forall h, In h (pending_wallets s) -> (h < next_wallet s)%nat;
  wf_live : forall h, In h (pending_wallets s) -> ~ In h (deleted s);
  wf_deleted : forall h, In h (deleted s) -> (h < next_wallet s)%nat
}.

(** An escrow is stale at [now] when the timer's test holds for it. *)
Definition stale (now : Z) (escrow : pendingEscrow) : bool :=
  now - p_created_at escrow >? PENDING_TTL_MS.

(** ** Resources of the running server *)

(** What every state of the running server satisfies besides [wf]: no
    wallet was deleted twice; a resident wallet was created before
    [next_wallet], is not deleted, belongs to no pending escrow and is
    kept under an id of the registry; the keys of [bountyData] are
    distinct; and reading [bounties.json] back gives [bountyData]. *)
Record resident_ok {G : Type} (s : state G) : Prop := mk_resident_ok {
  ro_deleted_once : NoDup (deleted s);
  ro_resident :
    forall id w, JsMap.get id (activeWallets s) = Some w ->
      (w < next_wallet s)%nat /\ ~ In w (deleted s)
      /\ ~ In w (pending_wallets s);
  ro_recorded :
    forall id w, JsMap.get id (activeWallets s) = Some w ->
      JsMap.has id (bountyData s) = true;
  ro_registry_keys : NoDup (JsMap.keys (bountyData s));
  ro_file : loadBountyState (bounties_json s) = bountyData s
}.

(** [s'] differs from [s] at most in the state of the engine and in the
    console. *)
Definition same_tables {G : Type} (s s' : state G) : Prop :=
  isInitialized s' = isInitialized s
  /\ next_wallet s' = next_wallet s
  /\ pendingEscrows s' = pendingEscrows s
  /\ bountyData s' = bountyData s
  /\ activeWallets s' = activeWallets s
  /\ bounties_json s' = bounties_json s
  /\ deleted s' = deleted s.

(** The process is stopped and started again on the same data directory:
    [main] loads the engine and reads [bounties.json] as the last
    [saveBountyState] left it. *)
Definition restart {G : Type} (g : G) (s : state G) : state G :=
  boot g (bounties_json s).

(** The status codes the routes use. *)
Definition running_statuses : list Z := [200; 400; 403; 404; 409; 500; 501].

(** ** The command-line tool *)

(** The members every object inherits from [Object.prototype]. *)
Definition Object_prototype_names : list string :=
  ["constructor"; "__defineGetter__"; "__defineSetter__"; "hasOwnProperty";
   "__lookupGetter__"; "__lookupSetter__"; "isPrototypeOf";
   "propertyIsEnumerable"; "toString"; "valueOf"; "__proto__";
   "toLocaleString"].

(** [o[id]] for the object parsed from [bounties.json]: an own member, a
    member inherited from [Object.prototype] (a function or the prototype
    itself, in each case truthy and without [wallet_mnemonic]), or
    [undefined]. *)
Inductive member : Type :=
| Own (info : bountyInfo)
| Inherited
| Absent.

(** [loadBounties] of the tool: [JSON.parse] keeps the last of the entries
    written under one key, as [loadBountyState] does. *)
Definition loadBounties (file : JsMap.t bountyInfo) : JsMap.t bountyInfo :=
  loadBountyState file.

Definition lookup_member (id : string) (bounties : JsMap.t bountyInfo)
  : member :=
  match JsMap.get id bounties with
  | Some info => Own info
  | None =>
      if existsb (String.eqb id) Object_prototype_names then Inherited
      else Absent
  end.

(** What a command leaves behind: the lines written with [console.log],
    those written with [console.error], and the exit code. *)
Record cli_output : Type := mkCli {
  stdout : list string;
  stderr : list string;
  exit_code : Z
}.

(** [cmdExportBountySeed(id)] run on the given content of
    [bounties.json]. *)
Definition cmdExportBountySeed (id : string) (file : JsMap.t bountyInfo)
  : cli_output :=
  let bounties := loadBounties file in
  match lookup_member id bounties with
  | Absent => mkCli [] ["Bounty " ++ id ++ " not found."] 1
  | Own info =>
      mkCli ["=== Bounty " ++ id ++ " Seed ==="; "";
             "WARNING: Keep this secret!"; ""; wallet_mnemonic info] [] 0
  | Inherited =>
      mkCli ["=== Bounty " ++ id ++ " Seed ==="; "";
             "WARNING: Keep this secret!"; ""; "undefined"] [] 0
  end.

(** ** Engines that fail *)

Module Faulty.

(** [TestDouble.engine] with another [prepare_multisig]. *)
Definition with_prepare (prepare : outcome (result string))
  : WasmModule nat :=
  let E := TestDouble.engine in
  mkWasm nat (WasmWallet E) (create_random E)
    (enable_multisig_experimental E)
    (fun g _ => (prepare, S g))
    (make_multisig E) (exchange_multisig_keys E) (get_seed E)
    (export_multisig_info E) (import_multisig_info E)
    (has_describe_multisig_tx_hex E) (describe_multisig_tx_hex E)
    (has_sign_multisig_tx_hex E) (sign_multisig_tx_hex E) (wallet_delete E).

(** [TestDouble.engine] with another [import_multisig_info]. *)
Definition with_import (import : outcome (result Z)) : WasmModule nat :=
  let E := TestDouble.engine in
  mkWasm nat (WasmWallet E) (create_random E)
    (enable_multisig_experimental E) (prepare_multisig E)
    (make_multisig E) (exchange_multisig_keys E) (get_seed E)
    (export_multisig_info E)
    (fun g _ _ => (import, S g))
    (has_describe_multisig_tx_hex E) (describe_multisig_tx_hex E)
    (has_sign_multisig_tx_hex E) (sign_multisig_tx_hex E) (wallet_delete E).

(** The engine refuses to prepare a wallet. *)
Definition refusing : WasmModule nat :=
  with_prepare (Returned (Failure "no entropy")).

(** The engine aborts in [prepare_multisig]. *)
Definition aborting : WasmModule nat := with_prepare (Threw "abort").

(** The engine answers [import_multisig_info] with text that is not
    JSON. *)
Definition garbling : WasmModule nat :=
  with_import (Threw "Unexpected token").

End Faulty.

(** * Properties *)

(** ** Facts about insertion-ordered maps *)

Section JsMapFacts.
Context {V : Type}.
Implicit Types (m : JsMap.t V) (k : string) (v : V).

Lemma get_set_eq k v m : JsMap.get k (JsMap.set k v m) = Some v.
Proof.
  induction m as [|[k' v'] rest IH]; simpl.
  - now rewrite String.eqb_refl.
  - destruct (String.eqb k k') eqn:E; simpl; rewrite E; auto.
Qed.

Lemma get_set_ne k k' v m :
  k <> k' -> JsMap.get k (JsMap.set k' v m) = JsMap.get k m.
Proof.
  intros Hne. induction m as [|[k0 v0] rest IH]; simpl.
  - apply String.eqb_neq in Hne. now rewrite Hne.
  - destruct (String.eqb k' k0) eqn:E; simpl.
    + apply String.eqb_eq in E. subst k0.
      apply String.eqb_neq in Hne. now rewrite Hne.
    + now rewrite IH.
Qed.

Lemma get_delete_eq k m : JsMap.get k (JsMap.delete k m) = None.
Proof.
  induction m as [|[k' v'] rest IH]; simpl; auto.
  destruct (String.eqb k k') eqn:E; simpl; auto. now rewrite E.
Qed.

Lemma get_delete_ne k k' m :
  k <> k' -> JsMap.get k (JsMap.delete k' m) = JsMap.get k m.
Proof.
  intros Hne. induction m as [|[k0 v0] rest IH]; simpl; auto.
  destruct (String.eqb k' k0) eqn:E; simpl.
  - apply String.eqb_eq in E. subst k0.
    apply String.eqb_neq in Hne. now rewrite Hne.
  - now rewrite IH.
Qed.

Lemma has_true k m :
  JsMap.has k m = true <-> exists v, JsMap.get k m = Some v.
Proof.
  unfold JsMap.has. destruct (JsMap.get k m) as [v|].
  - split; eauto.
  - split; [discriminate | intros [v Hv]; discriminate].
Qed.

Lemma has_false k m : JsMap.has k m = false <-> JsMap.get k m = None.
Proof.
  unfold JsMap.has. destruct (JsMap.get k m); split; congruence.
Qed.

Lemma get_In k v m : JsMap.get k m = Some v -> In (k, v) m.
Proof.
  induction m as [|[k' v'] rest IH]; simpl; [discriminate|].
  destruct (String.eqb k k') eqn:E.
  - apply String.eqb_eq in E. intros [= ->]. subst. now left.
  - intros H. right. auto.
Qed.

Lemma get_None_not_key k m :
  JsMap.get k m = None -> ~ In k (JsMap.keys m).
Proof.
  induction m as [|[k' v'] rest IH]; simpl; [tauto|].
  destruct (String.eqb k k') eqn:E; [discriminate|].
  apply String.eqb_neq in E. intros H [Hk|Hk]; [congruence|].
  now apply IH.
Qed.

(** With unique keys the entry listed under a key is the one [get] finds. *)
Lemma In_get k v m :
  NoDup (JsMap.keys m) -> In (k, v) m -> JsMap.get k m = Some v.
Proof.
  induction m as [|[k' v'] rest IH]; simpl; [tauto|].
  intros Hnd [Hin|Hin].
  - inversion Hin; subst. now rewrite String.eqb_refl.
  - inversion Hnd as [|? ? Hnotin Hnd']; subst.
    destruct (String.eqb k k') eqn:E.
    + apply String.eqb_eq in E. subst k'. exfalso. apply Hnotin.
      change (In (fst (k, v)) (map fst rest)). now apply in_map.
    + auto.
Qed.

Lemma In_delete k k' v m :
  In (k, v) (JsMap.delete k' m) -> In (k, v) m /\ k <> k'.
Proof.
  induction m as [|[k0 v0] rest IH]; simpl; [tauto|].
  destruct (String.eqb k' k0) eqn:E.
  - intros H. destruct (IH H). tauto.
  - intros [H|H].
    + inversion H; subst. apply String.eqb_neq in E. split; auto.
    + destruct (IH H). tauto.
Qed.

Lemma In_set k k' v v' m :
  In (k, v) (JsMap.set k' v' m) -> (k, v) = (k', v') \/ In (k, v) m.
Proof.
  induction m as [|[k0 v0] rest IH]; simpl.
  - intros [H|[]]. now left.
  - destruct (String.eqb k' k0) eqn:E; simpl.
    + apply String.eqb_eq in E. subst k0. intros [H|H]; auto.
    + intros [H|H]; auto. destruct (IH H); auto.
Qed.

Lemma keys_delete_In k k' m :
  In k (JsMap.keys (JsMap.delete k' m)) -> In k (JsMap.keys m).
Proof.
  unfold JsMap.keys. intros H. apply in_map_iff in H.
  destruct H as [[k0 v0] [Hk Hin]]. simpl in Hk. subst k0.
  apply In_delete in Hin. destruct Hin as [Hin _].
  change (In (fst (k, v0)) (map fst m)). now apply in_map.
Qed.

Lemma NoDup_keys_delete k m :
  NoDup (JsMap.keys m) -> NoDup (JsMap.keys (JsMap.delete k m)).
Proof.
  induction m as [|[k0 v0] rest IH]; simpl; auto.
  intros Hnd. inversion Hnd as [|? ? Hnotin Hnd']; subst.
  destruct (String.eqb k k0); simpl; auto.
  constructor; auto. intros H. apply Hnotin. now apply keys_delete_In in H.
Qed.

Lemma keys_set_In k k' v m :
  In k (JsMap.keys (JsMap.set k' v m)) -> k = k' \/ In k (JsMap.keys m).
Proof.
  unfold JsMap.keys. intros H. apply in_map_iff in H.
  destruct H as [[k0 v0] [Hk Hin]]. simpl in Hk. subst k0.
  apply In_set in Hin. destruct Hin as [Heq|Hin].
  - inversion Heq. now left.
  - right. change (In (fst (k, v0)) (map fst m)). now apply in_map.
Qed.

Lemma NoDup_keys_set k v m :
  NoDup (JsMap.keys m) -> NoDup (JsMap.keys (JsMap.set k v m)).
Proof.
  induction m as [|[k0 v0] rest IH]; simpl.
  - intros _. constructor; [tauto | constructor].
  - intros Hnd. inversion Hnd as [|? ? Hnotin Hnd']; subst.
    destruct (String.eqb k k0) eqn:E; simpl.
    + constructor; auto.
    + constructor; auto. intros H. apply keys_set_In in H.
      destruct H as [H|H]; [|tauto].
      subst k0. now rewrite String.eqb_refl in E.
Qed.

(** Projections of the values: what [delete] and [set] do to them. *)
Context {A : Type} (f : V -> A).

Lemma In_values_delete a k m :
  In a (map f (JsMap.values (JsMap.delete k m))) ->
  In a (map f (JsMap.values m)).
Proof.
  induction m as [|[k0 v0] rest IH]; simpl; auto.
  destruct (String.eqb k k0); simpl; intuition.
Qed.

Lemma NoDup_values_delete k m :
  NoDup (map f (JsMap.values m)) ->
  NoDup (map f (JsMap.values (JsMap.delete k m))).
Proof.
  induction m as [|[k0 v0] rest IH]; simpl; auto.
  intros Hnd. inversion Hnd as [|? ? Hnotin Hnd']; subst.
  destruct (String.eqb k k0); simpl; auto.
  constructor; auto. intros H. apply Hnotin.
  now apply In_values_delete in H.
Qed.

(** The value removed with a key is held by no entry that remains. *)
Lemma deleted_value_gone k v m :
  NoDup (map f (JsMap.values m)) ->
  JsMap.get k m = Some v ->
  ~ In (f v) (map f (JsMap.values (JsMap.delete k m))).
Proof.
  induction m as [|[k0 v0] rest IH]; simpl; [discriminate|].
  intros Hnd. inversion Hnd as [|? ? Hnotin Hnd']; subst.
  destruct (String.eqb k k0) eqn:E.
  - intros [= ->] H. apply Hnotin. now apply In_values_delete in H.
  - simpl. intros Hget [H|H].
    + apply Hnotin. rewrite H.
      apply get_In in Hget. apply in_map. unfold JsMap.values.
      change (In (snd (k, v)) (map snd rest)). now apply in_map.
    + now apply (IH Hnd' Hget).
Qed.

Lemma In_values_set a k v m :
  In a (map f (JsMap.values (JsMap.set k v m))) ->
  a = f v \/ In a (map f (JsMap.values m)).
Proof.
  induction m as [|[k0 v0] rest IH]; simpl.
  - intros [H|[]]; auto.
  - destruct (String.eqb k k0); simpl; intuition.
Qed.

Lemma NoDup_values_set k v m :
  NoDup (map f (JsMap.values m)) ->
  ~ In (f v) (map f (JsMap.values m)) ->
  NoDup (map f (JsMap.values (JsMap.set k v m))).
Proof.
  induction m as [|[k0 v0] rest IH]; simpl.
  - intros _ _. constructor; [tauto | constructor].
  - intros Hnd Hnotin. inversion Hnd as [|? ? Hnotin0 Hnd']; subst.
    destruct (String.eqb k k0); simpl.
    + constructor; auto.
    + constructor; auto. intros H. apply In_values_set in H.
      destruct H as [H|H]; [|tauto]. apply Hnotin. now left.
Qed.

End JsMapFacts.

(** ** The invariant of the running server *)

(** Case analysis on the innermost scrutinee of the goal. *)
Ltac break_match :=
  match goal with
  | |- context [match ?x with _ => _ end] =>
      lazymatch x with
      | context [match _ with _ => _ end] => fail
      | _ => destruct x eqn:?
      end
  end.

Section Invariant.
Context {G : Type} (W : WasmModule G).
Implicit Types (s : state G).

(** [wf] reads only the flag, the allocator, the three maps and the record
    of deletions. *)
Lemma wf_same s s' :
  wf s ->
  isInitialized s' = isInitialized s ->
  next_wallet s' = next_wallet s ->
  pendingEscrows s' = pendingEscrows s ->
  bountyData s' = bountyData s ->
  activeWallets s' = activeWallets s ->
  deleted s' = deleted s ->
  wf s'.
Proof.
  intros [H1 H2 H3 H4 H5 H6 H7 H8 H9] E1 E2 E3 E4 E5 E6.
  unfold pending_wallets in *.
  constructor; unfold pending_wallets;
    rewrite ?E1, ?E2, ?E3, ?E4, ?E5, ?E6; assumption.
Qed.

Lemma wf_boot (g : G) file : wf (boot g file).
Proof.
  constructor; simpl; try tauto; constructor.
Qed.

(** Dropping a pending escrow together with its wallet, as the timer and
    a repeated [init-escrow] do. *)
Lemma wf_drop_pending s id old :
  wf s ->
  JsMap.get id (pendingEscrows s) = Some old ->
  wf (set_pendingEscrows
        (JsMap.delete id (pendingEscrows (delete_wallet W (wallet old) s)))
        (delete_wallet W (wallet old) s)).
Proof.
  intros [H1 H2 H3 H4 H5 H6 H7 H8 H9] Hget.
  unfold pending_wallets in *.
  constructor; unfold pending_wallets; simpl.
  - assumption.
  - now apply NoDup_keys_delete.
  - intros H. apply H3. now apply keys_delete_In in H.
  - assumption.
  - intros k Hk. apply H5. now apply keys_delete_In in Hk.
  - now apply NoDup_values_delete.
  - intros h Hh. apply H7. now apply In_values_delete in Hh.
  - intros h Hh Hin. apply in_app_or in Hin. destruct Hin as [Hin|[Hin|[]]].
    + apply (H8 h); auto. now apply In_values_delete in Hh.
    + subst h. now apply (deleted_value_gone wallet id old _ H6 Hget).
  - intros h Hin. apply in_app_or in Hin. destruct Hin as [Hin|[Hin|[]]].
    + auto.
    + subst h. apply H7. apply in_map.
      apply get_In in Hget. unfold JsMap.values.
      change (In (snd (id, old)) (map snd (pendingEscrows s))).
      now apply in_map.
Qed.

(** Allocating the next wallet object. *)
Lemma wf_allocate s :
  wf s -> wf (set_next_wallet (S (next_wallet s)) s).
Proof.
  intros [H1 H2 H3 H4 H5 H6 H7 H8 H9].
  constructor; simpl; auto.
  - intros h Hh. specialize (H7 h Hh). simpl. lia.
  - intros h Hh. specialize (H9 h Hh). lia.
Qed.

(** Deleting a wallet that no pending escrow holds. *)
Lemma wf_delete_unheld s w :
  wf s -> (w < next_wallet s)%nat -> ~ In w (pending_wallets s) ->
  wf (delete_wallet W w s).
Proof.
  intros [H1 H2 H3 H4 H5 H6 H7 H8 H9] Hlt Hnot.
  constructor; simpl; auto.
  - intros h Hh Hin. apply in_app_or in Hin. destruct Hin as [Hin|[Hin|[]]].
    + now apply (H8 h).
    + subst h. now apply Hnot.
  - intros h Hin. apply in_app_or in Hin. destruct Hin as [Hin|[Hin|[]]].
    + auto.
    + now subst h.
Qed.

(** Storing a pending escrow around a wallet no other escrow holds. *)
Lemma wf_store_pending s id p :
  wf s -> id <> "" -> JsMap.get id (bountyData s) = None ->
  (wallet p < next_wallet s)%nat ->
  ~ In (wallet p) (pending_wallets s) -> ~ In (wallet p) (deleted s) ->
  wf (set_pendingEscrows (JsMap.set id p (pendingEscrows s)) s).
Proof.
  intros [H1 H2 H3 H4 H5 H6 H7 H8 H9] Hid Hb Hlt Hnot Hlive.
  unfold pending_wallets in *.
  constructor; unfold pending_wallets; simpl; auto.
  - now apply NoDup_keys_set.
  - intros H. apply keys_set_In in H. destruct H; [congruence | tauto].
  - intros k Hk. apply keys_set_In in Hk. destruct Hk; [now subst | auto].
  - now apply NoDup_values_set.
  - intros h Hh. apply In_values_set in Hh. destruct Hh; [now subst | auto].
  - intros h Hh. apply In_values_set in Hh. destruct Hh; [now subst | auto].
Qed.

(** Moving an escrow from the pending table to the registry. *)
Lemma wf_finalized s id info w :
  wf s -> id <> "" ->
  wf (set_activeWallets (JsMap.set id w (activeWallets s))
        (saveBountyState
           (set_bountyData (JsMap.set id info (bountyData s))
              (set_pendingEscrows (JsMap.delete id (pendingEscrows s)) s)))).
Proof.
  intros [H1 H2 H3 H4 H5 H6 H7 H8 H9] Hid.
  unfold pending_wallets in *.
  constructor; unfold pending_wallets; simpl; auto.
  - now apply NoDup_keys_delete.
  - intros H. apply H3. now apply keys_delete_In in H.
  - intros H. apply keys_set_In in H. destruct H; [congruence | tauto].
  - intros k Hk. unfold JsMap.keys in Hk. apply in_map_iff in Hk.
    destruct Hk as [[k0 v0] [Hk0 Hin]]. simpl in Hk0. subst k0.
    apply In_delete in Hin. destruct Hin as [Hin Hne].
    rewrite get_set_ne by assumption. apply H5.
    change (In (fst (k, v0)) (map fst (pendingEscrows s))). now apply in_map.
  - now apply NoDup_values_delete.
  - intros h Hh. apply H7. now apply In_values_delete in Hh.
  - intros h Hh. apply H8. now apply In_values_delete in Hh.
Qed.

Lemma not_str_false x : not_str x = false -> exists v, x = Some v /\ v <> "".
Proof.
  destruct x as [v|]; simpl; [|discriminate].
  intros H. apply String.eqb_neq in H. eauto.
Qed.

Lemma init_escrow_wf now req s : wf s -> wf (snd (init_escrow W now req s)).
Proof.
  intros Hwf. unfold init_escrow.
  destruct (negb (isInitialized s)); [exact Hwf|].
  destruct (not_str (ib_bounty_id req)) eqn:Hid; [exact Hwf|].
  apply not_str_false in Hid. destruct Hid as [id [Hreq Hid]].
  rewrite Hreq. simpl str_val.
  destruct (JsMap.has id (bountyData s)) eqn:Hb; [exact Hwf|].
  apply has_false in Hb.
  set (s1 := match JsMap.get id (pendingEscrows s) with
             | Some old => _ | None => s end).
  assert (H1 : wf s1 /\ JsMap.get id (bountyData s1) = None).
  { subst s1. destruct (JsMap.get id (pendingEscrows s)) as [old|] eqn:Hp.
    - split; [now apply wf_drop_pending | exact Hb].
    - split; assumption. }
  destruct H1 as [Hwf1 Hb1]. clearbody s1.
  cbv zeta.
  destruct (prepare_multisig W _ _) as [prepResult g4].
  set (s3 := set_wasm g4 _).
  assert (Hwf3 : wf s3).
  { apply (wf_same (set_next_wallet (S (next_wallet s1)) s1));
      [now apply wf_allocate | reflexivity ..]. }
  assert (Hnext : next_wallet s3 = S (next_wallet s1)) by reflexivity.
  assert (Hfresh : ~ In (next_wallet s1) (pending_wallets s3)).
  { intros H. apply (wf_allocated _ Hwf1) in H. lia. }
  assert (Hundeleted : ~ In (next_wallet s1) (deleted s3)).
  { intros H. apply (wf_deleted _ Hwf1) in H. lia. }
  assert (Hb3 : JsMap.get id (bountyData s3) = None) by exact Hb1.
  clearbody s3.
  destruct prepResult as [[multisig_info|error]|message]; simpl snd.
  - apply wf_store_pending; simpl; auto. lia.
  - eapply wf_same;
      [apply (wf_delete_unheld s3 (next_wallet s1) Hwf3) | reflexivity ..].
    + lia.
    + exact Hfresh.
  - eapply wf_same; [exact Hwf3 | reflexivity ..].
Qed.

(** A leaf of a route that touched at most the engine and the console. *)
Ltac tables_untouched H :=
  first [ exact H | eapply wf_same; [exact H | reflexivity ..] ].

Lemma finalize_missing_false req :
  finalize_missing req = false ->
  exists id, fb_bounty_id req = Some id /\ id <> "".
Proof.
  unfold finalize_missing. intros H.
  repeat (apply orb_false_iff in H; destruct H as [H ?]).
  now apply not_str_false.
Qed.

Lemma finalize_escrow_wf iso_now req s :
  wf s -> wf (snd (finalize_escrow W iso_now req s)).
Proof.
  intros Hwf. unfold finalize_escrow.
  destruct (negb (isInitialized s)); [exact Hwf|].
  destruct (finalize_missing req) eqn:Hmiss; [exact Hwf|].
  apply finalize_missing_false in Hmiss. destruct Hmiss as [id [Hreq Hid]].
  rewrite Hreq. simpl str_val.
  destruct (JsMap.get id (pendingEscrows s)) as [p|]; [|exact Hwf].
  cbv zeta.
  destruct (make_multisig W _ _ _ _ _) as [makeResult g1].
  destruct makeResult as [[guardian_round2|error]|message];
    try (simpl snd; tables_untouched Hwf).
  destruct (exchange_multisig_keys W _ _ _ _) as [kexResult g2].
  destruct kexResult as [[kex|error]|message];
    try (simpl snd; tables_untouched Hwf).
  cbn [snd].
  set (s4 := log (G:=G) ("[Guardian] Escrow finalized: " ++ kex_address kex) _).
  assert (Hwf4 : wf s4) by (subst s4; tables_untouched Hwf).
  clearbody s4.
  exact (wf_finalized s4 id _ (wallet p) Hwf4 Hid).
Qed.

Lemma describe_and_sign_wf k bounty_id tx w s :
  wf s -> wf (snd (describe_and_sign W k bounty_id tx w s)).
Proof.
  intros Hwf. unfold describe_and_sign.
  repeat break_match; simpl snd;
    repeat match goal with
           | H : (_, _) = (_, _) |- _ => inversion H; subst; clear H
           end;
    tables_untouched Hwf.
Qed.

Lemma sync_outputs_wf req s : wf s -> wf (snd (sync_outputs W req s)).
Proof.
  intros Hwf. unfold sync_outputs.
  repeat break_match; simpl snd; tables_untouched Hwf.
Qed.

Lemma sign_refund_wf req s : wf s -> wf (snd (sign_refund W req s)).
Proof.
  intros Hwf. unfold sign_refund.
  repeat break_match; try exact Hwf.
  now apply describe_and_sign_wf.
Qed.

Lemma sign_payout_wf req s : wf s -> wf (snd (sign_payout W req s)).
Proof.
  intros Hwf. unfold sign_payout.
  repeat break_match; try exact Hwf;
    apply describe_and_sign_wf; tables_untouched Hwf.
Qed.

(** One iteration of the timer's loop keeps the invariant when the entry
    it visits is still in the table. *)
Lemma cleanup_entry_wf now s id escrow :
  wf s -> JsMap.get id (pendingEscrows s) = Some escrow ->
  wf (cleanup_entry W now s (id, escrow)).
Proof.
  intros Hwf Hget. unfold cleanup_entry.
  destruct (now - p_created_at escrow >? PENDING_TTL_MS); [|exact Hwf].
  cbv zeta.
  set (s1 := log _ s).
  assert (Hwf1 : wf s1) by (subst s1; tables_untouched Hwf).
  assert (Hget1 : JsMap.get id (pendingEscrows s1) = Some escrow) by exact Hget.
  clearbody s1. now apply wf_drop_pending.
Qed.

(** The table after one iteration: the visited key is gone if its entry
    was stale, every other key is as before. *)
Lemma cleanup_entry_get now s id escrow k :
  JsMap.get k (pendingEscrows (cleanup_entry W now s (id, escrow))) =
  if String.eqb k id && stale now escrow then None
  else JsMap.get k (pendingEscrows s).
Proof.
  unfold cleanup_entry, stale.
  destruct (now - p_created_at escrow >? PENDING_TTL_MS); simpl.
  - destruct (String.eqb k id) eqn:E; simpl.
    + apply String.eqb_eq in E. subst. apply get_delete_eq.
    + apply String.eqb_neq in E. now apply get_delete_ne.
  - now rewrite andb_false_r.
Qed.

Lemma cleanup_fold_wf now l : forall s,
  wf s -> NoDup (JsMap.keys l) ->
  (forall k v, In (k, v) l -> JsMap.get k (pendingEscrows s) = Some v) ->
  wf (fold_left (cleanup_entry W now) l s).
Proof.
  induction l as [|[id escrow] rest IH]; cbn [fold_left];
    intros s Hwf Hnd Hin; auto.
  simpl in Hnd. inversion Hnd as [|? ? Hnotin Hnd']; subst.
  apply IH; auto.
  - apply cleanup_entry_wf; auto. apply Hin. now left.
  - intros k v Hkv. rewrite cleanup_entry_get.
    destruct (String.eqb k id) eqn:E; simpl.
    + apply String.eqb_eq in E. subst k. exfalso. apply Hnotin.
      change (In (fst (id, v)) (map fst rest)). now apply in_map.
    + apply Hin. now right.
Qed.

Lemma cleanup_wf now s : wf s -> wf (cleanup W now s).
Proof.
  intros Hwf. unfold cleanup. apply cleanup_fold_wf; auto.
  - apply (wf_pending_keys _ Hwf).
  - intros k v Hin. apply In_get; auto. apply (wf_pending_keys _ Hwf).
Qed.

Lemma step_wf e s : wf s -> wf (snd (step W e s)).
Proof.
  intros Hwf. destruct e; simpl; try exact Hwf.
  - pose proof (init_escrow_wf now req s Hwf).
    now destruct (init_escrow W now req s).
  - pose proof (finalize_escrow_wf iso_now req s Hwf).
    now destruct (finalize_escrow W iso_now req s).
  - pose proof (sync_outputs_wf req s Hwf).
    now destruct (sync_outputs W req s).
  - pose proof (sign_refund_wf req s Hwf).
    now destruct (sign_refund W req s).
  - pose proof (sign_payout_wf req s Hwf).
    now destruct (sign_payout W req s).
  - now apply cleanup_wf.
Qed.

Lemma reachable_wf s : reachable W s -> wf s.
Proof.
  induction 1; [apply wf_boot | now apply step_wf].
Qed.

Lemma reachable_run es : forall s,
  reachable W s -> reachable W (snd (run W es s)).
Proof.
  induction es as [|e rest IH]; simpl; intros s Hr; auto.
  pose proof (reach_step W e s Hr) as H1.
  destruct (step W e s) as [r s1]. simpl in H1.
  specialize (IH s1 H1). now destruct (run W rest s1).
Qed.

End Invariant.

(** ** The deadline gate and the protocol driver *)

Section Gates.
Context {G : Type} (W : WasmModule G).
Implicit Types (s : state G).

(** The describe-then-sign sequence answers with the signed transaction,
    with an engine error, or with 501 when the engine cannot sign. *)
Lemma describe_and_sign_status k bounty_id tx w s :
  In (status (fst (describe_and_sign W k bounty_id tx w s))) [200; 500; 501].
Proof.
  unfold describe_and_sign, catch.
  repeat break_match; simpl;
    repeat match goal with
           | H : (_, _) = (_, _) |- _ => inversion H; subst; clear H
           end;
    try discriminate; simpl; try destruct k; simpl; tauto.
Qed.

(** C1.  On the running server, for a request that carries an escrow id, a
    current block and a transaction payload, and a bounty record stored
    under the id: when the current block is below the record's deadline the
    answer is 403 "Deadline not reached", reporting [blocks_remaining] as
    exactly deadline minus current block, and nothing changes; when it is
    at or past the deadline and a wallet is resident under the id, the
    route continues with the describe-then-sign sequence on that wallet,
    whose answer is 200, 500 or 501. *)
Theorem sign_refund_deadline_gate s (id tx : string) (current_block : Z)
    (info : bountyInfo) :
  reachable W s -> id <> "" -> tx <> "" ->
  JsMap.get id (bountyData s) = Some info ->
  (current_block < deadline_block info ->
   sign_refund W (mkRefundBody (Some id) (Some current_block) (Some tx)) s =
   (mkResponse 403
      (JObj [("error", JStr "Deadline not reached");
             ("current_block", JNum current_block);
             ("deadline_block", JNum (deadline_block info));
             ("blocks_remaining",
              JNum (deadline_block info - current_block))]), s))
  /\ (current_block >= deadline_block info ->
      forall w, JsMap.get id (activeWallets s) = Some w ->
      sign_refund W (mkRefundBody (Some id) (Some current_block) (Some tx)) s =
      describe_and_sign W Refund id tx w s
      /\ In (status (fst (sign_refund W
                            (mkRefundBody (Some id) (Some current_block)
                               (Some tx)) s)))
           [200; 500; 501]).
Proof.
  intros Hr Hid Htx Hinfo.
  pose proof (wf_initialized _ (reachable_wf W s Hr)) as Hinit.
  apply String.eqb_neq in Hid, Htx.
  unfold sign_refund, refund_missing. simpl.
  rewrite Hinit, Hid, Htx, Hinfo. simpl.
  split.
  - intros Hlt. apply Z.ltb_lt in Hlt. now rewrite Hlt.
  - intros Hge w Hw.
    assert (Hnlt : (current_block <? deadline_block info) = false)
      by (apply Z.ltb_ge; lia).
    rewrite Hnlt, Hw. split; [reflexivity | apply describe_and_sign_status].
Qed.

(** C2.  When [finalize-escrow] answers 200, a pending escrow was stored
    under the id; [make_multisig] was called on its wallet with the
    round-1 payloads in the order own, server, worker and returned the own
    round-2 payload; [exchange_multisig_keys] was then called with the
    round-2 payloads in the order own, server, worker; and the response
    carries the stored own round-1 payload, that round-2 payload, and the
    address and readiness flag returned by the key exchange. *)
Theorem finalize_round_order s iso_now req r s' :
  finalize_escrow W iso_now req s = (r, s') ->
  status r = 200 ->
  exists p guardian_round2 kex g1 g2,
    JsMap.get (str_val (fb_bounty_id req)) (pendingEscrows s) = Some p
    /\ make_multisig W (wasm s) (wallet p) "" 2
         [guardian_round1 p; str_val (fb_server_round1 req);
          str_val (fb_worker_round1 req)]
       = (Returned (Success guardian_round2), g1)
    /\ exchange_multisig_keys W g1 (wallet p) ""
         [guardian_round2; str_val (fb_server_round2 req);
          str_val (fb_worker_round2 req)]
       = (Returned (Success kex), g2)
    /\ r = mkResponse 200
             (JObj [("success", JBool true);
                    ("bounty_id", JStr (str_val (fb_bounty_id req)));
                    ("guardian_round1", JStr (guardian_round1 p));
                    ("guardian_round2", JStr guardian_round2);
                    ("multisig_address", JStr (kex_address kex));
                    ("is_ready", JBool (kex_is_ready kex))]).
Proof.
  unfold finalize_escrow. intros Hrun Hok.
  destruct (negb (isInitialized s));
    [inversion Hrun; subst; discriminate|].
  destruct (finalize_missing req);
    [inversion Hrun; subst; discriminate|].
  destruct (JsMap.get (str_val (fb_bounty_id req)) (pendingEscrows s))
    as [p|]; [|inversion Hrun; subst; discriminate].
  cbv zeta in Hrun. cbn [wasm log] in Hrun.
  destruct (make_multisig W (wasm s) (wallet p) "" 2 _)
    as [makeResult g1] eqn:Hmake.
  destruct makeResult as [[guardian_round2|error]|message];
    try (inversion Hrun; subst; discriminate).
  cbn [wasm set_wasm] in Hrun.
  destruct (exchange_multisig_keys W g1 (wallet p) "" _)
    as [kexResult g2] eqn:Hkex.
  destruct kexResult as [[kex|error]|message];
    try (inversion Hrun; subst; discriminate).
  exists p, guardian_round2, kex, g1, g2.
  repeat split; auto. now inversion Hrun.
Qed.

(** C3.  On the running server and for a request that carries all six
    required fields: without a pending escrow under the id the answer is
    404 and nothing changes; with one, a round-2 computation or a key
    exchange that fails (by a [success: false] result or by an exception)
    gives the answer 500 whose error text carries the engine's reason, and
    leaves the pending table, with the entry of the id, the registry and
    the resident wallets as they were. *)
Theorem finalize_failures s iso_now req :
  reachable W s ->
  finalize_missing req = false ->
  (JsMap.get (str_val (fb_bounty_id req)) (pendingEscrows s) = None ->
   finalize_escrow W iso_now req s =
   (mkResponse 404
      (JObj [("error",
              JStr "Pending escrow not found. Call /init-escrow first.");
             ("hint",
              JStr "The escrow may have expired (5 min timeout) or server restarted.")]),
    s))
  /\ (forall p r s',
      JsMap.get (str_val (fb_bounty_id req)) (pendingEscrows s) = Some p ->
      finalize_escrow W iso_now req s = (r, s') ->
      let round1 := [guardian_round1 p; str_val (fb_server_round1 req);
                     str_val (fb_worker_round1 req)] in
      let unchanged :=
        pendingEscrows s' = pendingEscrows s
        /\ JsMap.get (str_val (fb_bounty_id req)) (pendingEscrows s') = Some p
        /\ bountyData s' = bountyData s
        /\ activeWallets s' = activeWallets s in
      (forall reason g1,
         make_multisig W (wasm s) (wallet p) "" 2 round1
         = (Returned (Failure reason), g1) ->
         r = mkResponse 500
               (JObj [("error", JStr ("Failed to make multisig: " ++ reason))])
         /\ unchanged)
      /\ (forall reason g1,
         make_multisig W (wasm s) (wallet p) "" 2 round1
         = (Threw reason, g1) ->
         r = mkResponse 500 (JObj [("error", JStr reason)]) /\ unchanged)
      /\ (forall guardian_round2 g1,
         make_multisig W (wasm s) (wallet p) "" 2 round1
         = (Returned (Success guardian_round2), g1) ->
         let round2 := [guardian_round2; str_val (fb_server_round2 req);
                        str_val (fb_worker_round2 req)] in
         (forall reason g2,
            exchange_multisig_keys W g1 (wallet p) "" round2
            = (Returned (Failure reason), g2) ->
            r = mkResponse 500
                  (JObj [("error",
                          JStr ("Failed to exchange keys: " ++ reason))])
            /\ unchanged)
         /\ (forall reason g2,
            exchange_multisig_keys W g1 (wallet p) "" round2
            = (Threw reason, g2) ->
            r = mkResponse 500 (JObj [("error", JStr reason)])
            /\ unchanged))).
Proof.
  intros Hr Hmiss.
  pose proof (wf_initialized _ (reachable_wf W s Hr)) as Hinit.
  unfold finalize_escrow. rewrite Hinit, Hmiss.
  cbn [negb]. split.
  - intros Hnone. now rewrite Hnone.
  - intros p r s' Hp. rewrite Hp. cbv zeta. cbn [wasm log].
    intros Hrun.
    assert (Hdone : forall p0 message (s0 : state G),
              pendingEscrows s0 = pendingEscrows s ->
              bountyData s0 = bountyData s ->
              activeWallets s0 = activeWallets s ->
              catch p0 message s0 = (r, s') ->
              r = mkResponse 500 (JObj [("error", JStr message)])
              /\ pendingEscrows s' = pendingEscrows s
              /\ JsMap.get (str_val (fb_bounty_id req)) (pendingEscrows s')
                 = Some p
              /\ bountyData s' = bountyData s
              /\ activeWallets s' = activeWallets s).
    { intros p0 message s0 E1 E2 E3 Hc. unfold catch in Hc.
      inversion Hc; subst. cbn. rewrite E1, E2, E3. auto. }
    split; [|split].
    + intros reason g1 Hmake. rewrite Hmake in Hrun.
      now apply Hdone in Hrun.
    + intros reason g1 Hmake. rewrite Hmake in Hrun.
      now apply Hdone in Hrun.
    + intros guardian_round2 g1 Hmake. rewrite Hmake in Hrun.
      cbn [wasm set_wasm] in Hrun.
      split.
      * intros reason g2 Hkex. rewrite Hkex in Hrun.
        now apply Hdone in Hrun.
      * intros reason g2 Hkex. rewrite Hkex in Hrun.
        now apply Hdone in Hrun.
Qed.

End Gates.

(** ** The cleanup timer *)

Section Sweeper.
Context {G : Type} (W : WasmModule G).
Implicit Types (s : state G).

(** The keys of [l] whose entry is stale at [now]. *)
Lemma cleanup_fold_get now l : forall s k,
  JsMap.get k (pendingEscrows (fold_left (cleanup_entry W now) l s)) =
  if existsb (fun e => String.eqb k (fst e) && stale now (snd e)) l
  then None else JsMap.get k (pendingEscrows s).
Proof.
  induction l as [|[id escrow] rest IH]; cbn [fold_left existsb];
    intros s k; auto.
  rewrite IH, cleanup_entry_get. cbn [fst snd].
  destruct (String.eqb k id && stale now escrow); simpl.
  - now destruct (existsb _ rest).
  - reflexivity.
Qed.

Lemma cleanup_fold_deleted now l : forall s,
  deleted (fold_left (cleanup_entry W now) l s) =
  (deleted s
   ++ map wallet (JsMap.values (filter (fun e => stale now (snd e)) l)))%list.
Proof.
  induction l as [|[id escrow] rest IH]; cbn [fold_left filter];
    intros s.
  - simpl. now rewrite app_nil_r.
  - rewrite IH. unfold cleanup_entry, stale. cbn [snd].
    destruct (now - p_created_at escrow >? PENDING_TTL_MS); simpl.
    + now rewrite <- app_assoc.
    + reflexivity.
Qed.

Lemma NoDup_map_filter {A B : Type} (f : A -> B) (P : A -> bool) l :
  NoDup (map f l) -> NoDup (map f (filter P l)).
Proof.
  induction l as [|x rest IH]; simpl; auto.
  intros Hnd. inversion Hnd as [|? ? Hnotin Hnd']; subst.
  destruct (P x); simpl; auto.
  constructor; auto. intros H. apply Hnotin.
  apply in_map_iff in H. destruct H as [y [Hy Hin]].
  apply filter_In in Hin. destruct Hin as [Hin _].
  rewrite <- Hy. now apply in_map.
Qed.

Lemma NoDup_map_eq {A B : Type} (f : A -> B) l x y :
  NoDup (map f l) -> In x l -> In y l -> f x = f y -> x = y.
Proof.
  induction l as [|z rest IH]; simpl; [tauto|].
  intros Hnd Hx Hy Hf. inversion Hnd as [|? ? Hnotin Hnd']; subst.
  destruct Hx as [->|Hx], Hy as [->|Hy]; auto.
  - exfalso. apply Hnotin. rewrite Hf. now apply in_map.
  - exfalso. apply Hnotin. rewrite <- Hf. now apply in_map.
Qed.

(** C7.  On the running server, one run of the timer's callback at time
    [now] treats a pending escrow stored under [id] as follows.  If its age
    [now - created_at] exceeds the TTL of 5 minutes, the id is absent from
    the table afterwards and the record of wallet deletions holds its
    wallet exactly once.  If its age is at most the TTL, the entry is
    unchanged and its wallet has not been deleted.  The timer is started
    with a period of one minute. *)
Theorem cleanup_evicts_stale s now id escrow :
  reachable W s ->
  JsMap.get id (pendingEscrows s) = Some escrow ->
  PENDING_TTL_MS = 300000 /\ SWEEP_PERIOD_MS = 60000
  /\ (now - p_created_at escrow > PENDING_TTL_MS ->
      JsMap.get id (pendingEscrows (cleanup W now s)) = None
      /\ count_occ Nat.eq_dec (deleted (cleanup W now s)) (wallet escrow)
         = 1%nat)
  /\ (now - p_created_at escrow <= PENDING_TTL_MS ->
      JsMap.get id (pendingEscrows (cleanup W now s)) = Some escrow
      /\ count_occ Nat.eq_dec (deleted (cleanup W now s)) (wallet escrow)
         = 0%nat).
Proof.
  intros Hr Hget. pose proof (reachable_wf W s Hr) as Hwf.
  pose proof (wf_pending_keys _ Hwf) as Hkeys.
  pose proof (wf_wallets _ Hwf) as Hwallets.
  unfold pending_wallets, JsMap.values in Hwallets.
  rewrite map_map in Hwallets.
  assert (Hin : In (id, escrow) (pendingEscrows s)) by now apply get_In.
  assert (Hlive : count_occ Nat.eq_dec (deleted s) (wallet escrow) = 0%nat).
  { apply count_occ_not_In. apply (wf_live _ Hwf).
    unfold pending_wallets, JsMap.values. rewrite map_map.
    now apply (in_map (fun e => wallet (snd e)) _ (id, escrow)). }
  split; [reflexivity|]. split; [reflexivity|].
  unfold cleanup. rewrite cleanup_fold_get, cleanup_fold_deleted.
  rewrite count_occ_app. unfold handle in *. rewrite Hlive.
  unfold JsMap.values. rewrite map_map.
  set (evicted := filter (fun e => stale now (snd e)) (pendingEscrows s)).
  split.
  - intros Hold.
    assert (Hstale : stale now escrow = true)
      by (unfold stale; apply Z.gtb_lt; lia).
    split.
    + replace (existsb _ _) with true; auto.
      symmetry. apply existsb_exists. exists (id, escrow).
      split; auto. simpl. now rewrite String.eqb_refl, Hstale.
    + assert (Hev : In (id, escrow) evicted)
        by (apply filter_In; auto).
      assert (Hnd : NoDup (map (fun e => wallet (snd e)) evicted))
        by now apply NoDup_map_filter.
      apply (in_map (fun e => wallet (snd e))) in Hev. simpl in Hev.
      apply (count_occ_In Nat.eq_dec) in Hev.
      rewrite (NoDup_count_occ Nat.eq_dec) in Hnd.
      specialize (Hnd (wallet escrow)). simpl. unfold handle in *. lia.
  - intros Hyoung.
    assert (Hfresh : stale now escrow = false).
    { unfold stale. destruct (now - p_created_at escrow >? PENDING_TTL_MS) eqn:E;
        auto. apply Z.gtb_lt in E. lia. }
    split.
    + destruct (existsb _ _) eqn:E; auto.
      apply existsb_exists in E. destruct E as [[k e] [Hke Hcond]].
      simpl in Hcond. apply andb_true_iff in Hcond.
      destruct Hcond as [Hk He]. apply String.eqb_eq in Hk. subst k.
      apply (In_get _ _ _ Hkeys) in Hke. congruence.
    + simpl. apply count_occ_not_In. intros H.
      apply in_map_iff in H. destruct H as [[k e] [Hw Hke]].
      apply filter_In in Hke. destruct Hke as [Hke He]. simpl in Hw, He.
      assert (Heq : (k, e) = (id, escrow))
        by (apply (NoDup_map_eq (fun e => wallet (snd e)) _ _ _ Hwallets);
            auto).
      inversion Heq; subst. congruence.
Qed.

End Sweeper.

(** ** Sessions: begin, replacement, and the two tables *)

Section Sessions.
Context {G : Type} (W : WasmModule G).
Implicit Types (s : state G).

Lemma has_set_mono {V : Type} k k' (v : V) m :
  JsMap.has k m = true -> JsMap.has k (JsMap.set k' v m) = true.
Proof.
  intros H. apply has_true. apply has_true in H. destruct H as [v0 Hv0].
  destruct (string_dec k k') as [->|Hne].
  - exists v. apply get_set_eq.
  - exists v0. now rewrite get_set_ne.
Qed.

Lemma get_keys {V : Type} k (v : V) m :
  JsMap.get k m = Some v -> In k (JsMap.keys m).
Proof.
  intros H. apply get_In in H. unfold JsMap.keys.
  change (In (fst (k, v)) (map fst m)). now apply in_map.
Qed.

(** An id of the registry is refused, and the refusal changes nothing. *)
Lemma init_escrow_finalized s now id info :
  isInitialized s = true -> id <> "" ->
  JsMap.get id (bountyData s) = Some info ->
  init_escrow W now (mkInitBody (Some id)) s =
  (mkResponse 409 (JObj [("error", JStr "Bounty already finalized")]), s).
Proof.
  intros Hinit Hid Hinfo. apply String.eqb_neq in Hid.
  unfold init_escrow, JsMap.has. simpl.
  now rewrite Hinit, Hid, Hinfo.
Qed.

(** C4, as amended.  On the running server, [init-escrow] for a non-empty
    id that is already in the registry answers 409 "Bounty already
    finalized" and leaves the whole state as it was: no wallet is created
    and no pending escrow is stored.  For an id that is in the pending
    table the answer is never 409. *)
Theorem init_escrow_conflict s now id :
  reachable W s -> id <> "" ->
  (forall info,
     JsMap.get id (bountyData s) = Some info ->
     init_escrow W now (mkInitBody (Some id)) s =
     (mkResponse 409 (JObj [("error", JStr "Bounty already finalized")]), s))
  /\ (forall p,
      JsMap.get id (pendingEscrows s) = Some p ->
      status (fst (init_escrow W now (mkInitBody (Some id)) s)) <> 409).
Proof.
  intros Hr Hid. pose proof (reachable_wf W s Hr) as Hwf.
  pose proof (wf_initialized _ Hwf) as Hinit.
  split.
  - intros info. now apply init_escrow_finalized.
  - intros p Hp.
    assert (Hb : JsMap.get id (bountyData s) = None).
    { apply (wf_disjoint _ Hwf). eapply get_keys; eauto. }
    apply String.eqb_neq in Hid.
    unfold init_escrow, JsMap.has, catch. simpl.
    rewrite Hinit, Hid, Hb, Hp. simpl.
    destruct (prepare_multisig W _ _) as [[[round1|error]|message] g4];
      simpl; discriminate.
Qed.

(** C5.  On the running server, [init-escrow] for an id that still has a
    pending escrow deletes that escrow's wallet and, when the engine
    produces the round-1 payload of the newly created wallet, answers 200
    with that payload and stores under the id a new entry made of the new
    wallet (a different object), the new payload and the current time.
    For an id that is in the registry the answer is 409 and nothing
    changes. *)
Theorem init_escrow_twice s now id :
  reachable W s ->
  (forall first,
     JsMap.get id (pendingEscrows s) = Some first ->
     let w := next_wallet s in
     let g :=
       enable_multisig_experimental W
         (create_random W
            (WasmWallet W (wallet_delete W (wasm s) (wallet first)) w)
            w NETWORK "English") w in
     forall round1 g',
       prepare_multisig W g w = (Returned (Success round1), g') ->
       exists s',
         init_escrow W now (mkInitBody (Some id)) s =
         (mkResponse 200
            (JObj [("success", JBool true);
                   ("bounty_id", JStr id);
                   ("guardian_round1", JStr round1)]), s')
         /\ deleted s' = (deleted s ++ [wallet first])%list
         /\ JsMap.get id (pendingEscrows s') = Some (mkPending w round1 now)
         /\ w <> wallet first
         /\ (forall k, k <> id ->
             JsMap.get k (pendingEscrows s') = JsMap.get k (pendingEscrows s)))
  /\ (forall info,
      id <> "" -> JsMap.get id (bountyData s) = Some info ->
      init_escrow W now (mkInitBody (Some id)) s =
      (mkResponse 409 (JObj [("error", JStr "Bounty already finalized")]), s)).
Proof.
  intros Hr. pose proof (reachable_wf W s Hr) as Hwf.
  pose proof (wf_initialized _ Hwf) as Hinit.
  split; [|intros info; now apply init_escrow_finalized].
  intros first Hfirst w g round1 g' Hprep.
  assert (Hkey : In id (JsMap.keys (pendingEscrows s)))
    by (eapply get_keys; eauto).
  assert (Hid : id <> "").
  { intros ->. now apply (wf_pending_ids _ Hwf). }
  assert (Hb : JsMap.get id (bountyData s) = None)
    by now apply (wf_disjoint _ Hwf).
  apply String.eqb_neq in Hid.
  unfold init_escrow, JsMap.has. simpl.
  rewrite Hinit, Hid, Hb, Hfirst. simpl.
  fold w. fold g. rewrite Hprep.
  eexists. split; [reflexivity|]. simpl.
  split; [reflexivity|].
  split; [apply get_set_eq|].
  split.
  - assert (Hlt : (wallet first < next_wallet s)%nat).
    { apply (wf_allocated _ Hwf). unfold pending_wallets, JsMap.values.
      apply in_map. apply get_In in Hfirst.
      change (In (snd (id, first)) (map snd (pendingEscrows s))).
      now apply in_map. }
    subst w. lia.
  - intros k Hk. rewrite get_set_ne by assumption.
    now apply get_delete_ne.
Qed.

(** The registry only grows: no event removes an id from it. *)
Lemma describe_and_sign_bountyData k bounty_id tx w s :
  bountyData (snd (describe_and_sign W k bounty_id tx w s)) = bountyData s.
Proof.
  unfold describe_and_sign, catch.
  repeat break_match; simpl snd;
    repeat match goal with
           | H : (_, _) = (_, _) |- _ => inversion H; subst; clear H
           end; reflexivity.
Qed.

Lemma cleanup_fold_bountyData now l : forall s,
  bountyData (fold_left (cleanup_entry W now) l s) = bountyData s.
Proof.
  induction l as [|[id escrow] rest IH]; cbn [fold_left]; intros s; auto.
  rewrite IH. unfold cleanup_entry.
  now destruct (now - p_created_at escrow >? PENDING_TTL_MS).
Qed.

Lemma step_registry_grows e s id :
  JsMap.has id (bountyData s) = true ->
  JsMap.has id (bountyData (snd (step W e s))) = true.
Proof.
  intros H. destruct e; cbn [step]; auto.
  - assert (JsMap.has id (bountyData (snd (init_escrow W now req s))) = true).
    { unfold init_escrow, catch. repeat break_match; simpl; auto. }
    now destruct (init_escrow W now req s).
  - assert (JsMap.has id
              (bountyData (snd (finalize_escrow W iso_now req s))) = true).
    { unfold finalize_escrow, catch. repeat break_match; simpl; auto.
      now apply has_set_mono. }
    now destruct (finalize_escrow W iso_now req s).
  - assert (JsMap.has id (bountyData (snd (sync_outputs W req s))) = true).
    { unfold sync_outputs, catch. repeat break_match; simpl; auto. }
    now destruct (sync_outputs W req s).
  - assert (JsMap.has id (bountyData (snd (sign_refund W req s))) = true).
    { unfold sign_refund. repeat break_match; simpl; auto.
      now rewrite describe_and_sign_bountyData. }
    now destruct (sign_refund W req s).
  - assert (JsMap.has id (bountyData (snd (sign_payout W req s))) = true).
    { unfold sign_payout. repeat break_match; simpl; auto;
        now rewrite describe_and_sign_bountyData. }
    now destruct (sign_payout W req s).
  - simpl. unfold cleanup. now rewrite cleanup_fold_bountyData.
Qed.

(** C6, as amended.  In every state of the running server an id is in at
    most one of the pending table and the registry.  Right after a
    successful [init-escrow] it is in the pending table only; right after a
    successful [finalize-escrow] it is in the registry only; an id of the
    registry stays there, and out of the pending table, under every event;
    and a pending id whose age exceeds the TTL is in neither table after
    the timer has run. *)
Theorem pending_registry_exclusive s id :
  reachable W s ->
  ~ (JsMap.has id (pendingEscrows s) = true
     /\ JsMap.has id (bountyData s) = true)
  /\ (forall now r s',
      init_escrow W now (mkInitBody (Some id)) s = (r, s') ->
      status r = 200 ->
      JsMap.has id (pendingEscrows s') = true
      /\ JsMap.has id (bountyData s') = false)
  /\ (forall iso_now req r s',
      fb_bounty_id req = Some id ->
      finalize_escrow W iso_now req s = (r, s') ->
      status r = 200 ->
      JsMap.has id (pendingEscrows s') = false
      /\ JsMap.has id (bountyData s') = true)
  /\ (forall e,
      JsMap.has id (bountyData s) = true ->
      JsMap.has id (bountyData (snd (step W e s))) = true
      /\ JsMap.has id (pendingEscrows (snd (step W e s))) = false)
  /\ (forall now p,
      JsMap.get id (pendingEscrows s) = Some p ->
      now - p_created_at p > PENDING_TTL_MS ->
      JsMap.has id (pendingEscrows (snd (step W (Cleanup now) s))) = false
      /\ JsMap.has id (bountyData (snd (step W (Cleanup now) s))) = false).
Proof.
  intros Hr. pose proof (reachable_wf W s Hr) as Hwf.
  split; [|split; [|split; [|split]]].
  - intros [Hp Hb]. apply has_true in Hp. destruct Hp as [p Hp].
    apply get_keys in Hp. apply (wf_disjoint _ Hwf) in Hp.
    apply has_false in Hp. congruence.
  - unfold init_escrow. intros now r s' Hrun Hok.
    destruct (negb (isInitialized s));
      [inversion Hrun; subst; discriminate|].
    destruct (not_str (ib_bounty_id (mkInitBody (Some id))));
      [inversion Hrun; subst; discriminate|].
    simpl str_val in Hrun.
    destruct (JsMap.has id (bountyData s)) eqn:Hb;
      [inversion Hrun; subst; discriminate|].
    cbv zeta in Hrun.
    destruct (prepare_multisig W _ _) as [[[round1|error]|message] g4];
      inversion Hrun; subst; try discriminate.
    simpl. split.
    + apply has_true. eexists. apply get_set_eq.
    + destruct (JsMap.get id (pendingEscrows s)); exact Hb.
  - unfold finalize_escrow. intros iso_now req r s' Hreq Hrun Hok.
    rewrite Hreq in Hrun. simpl str_val in Hrun.
    repeat match type of Hrun with
           | context [match ?x with _ => _ end] =>
               lazymatch x with
               | context [match _ with _ => _ end] => fail
               | _ => destruct x eqn:?
               end
           end;
      inversion Hrun; subst; try discriminate.
    simpl. split.
    + apply has_false. apply get_delete_eq.
    + apply has_true. eexists. apply get_set_eq.
  - intros e Hb. split; [now apply step_registry_grows|].
    pose proof (reachable_wf W _ (reach_step W e s Hr)) as Hwf'.
    destruct (JsMap.has id (pendingEscrows (snd (step W e s)))) eqn:Hp; auto.
    apply has_true in Hp. destruct Hp as [p Hp].
    apply get_keys in Hp. apply (wf_disjoint _ Hwf') in Hp.
    apply has_false in Hp.
    pose proof (step_registry_grows e s id Hb). congruence.
  - intros now p Hp Hold. cbn [step snd]. unfold cleanup. split.
    + apply has_false. rewrite cleanup_fold_get.
      replace (existsb _ _) with true; auto.
      symmetry. apply existsb_exists. exists (id, p). split.
      * now apply get_In.
      * simpl. rewrite String.eqb_refl. unfold stale.
        apply Z.gtb_lt. lia.
    + rewrite cleanup_fold_bountyData. apply has_false.
      apply (wf_disjoint _ Hwf). eapply get_keys; eauto.
Qed.

End Sessions.

(** ** The recovery seed never reaches a response *)

Section Secrecy.
Context {G : Type} (W : WasmModule G).
Implicit Types (s : state G).

Lemma get_erase k m :
  JsMap.get k (erase_seeds m) = option_map erase_seed (JsMap.get k m).
Proof.
  induction m as [|[k' v'] rest IH]; simpl; auto.
  now destruct (String.eqb k k').
Qed.

Lemma has_erase k m : JsMap.has k (erase_seeds m) = JsMap.has k m.
Proof.
  unfold JsMap.has. rewrite get_erase. now destruct (JsMap.get k m).
Qed.

Lemma set_erase k v m :
  erase_seeds (JsMap.set k v m) = JsMap.set k (erase_seed v) (erase_seeds m).
Proof.
  induction m as [|[k' v'] rest IH]; simpl; auto.
  destruct (String.eqb k k'); simpl; auto. now rewrite IH.
Qed.

Lemma size_erase m : JsMap.size (erase_seeds m) = JsMap.size m.
Proof.
  unfold JsMap.size, erase_seeds. now rewrite length_map.
Qed.

Lemma summary_erase m :
  map bounty_summary (erase_seeds m) = map bounty_summary m.
Proof.
  induction m as [|[k v] rest IH]; simpl; auto. now rewrite IH.
Qed.

Lemma describe_and_sign_erase k bounty_id tx w s :
  describe_and_sign (seedless W) k bounty_id tx w (erase s) =
  (fst (describe_and_sign W k bounty_id tx w s),
   erase (snd (describe_and_sign W k bounty_id tx w s))).
Proof.
  unfold describe_and_sign, catch. simpl.
  destruct (has_describe_multisig_tx_hex W).
  - destruct (describe_multisig_tx_hex W (wasm s) w tx) as [[desc|message] g1];
      [|reflexivity].
    destruct (has_sign_multisig_tx_hex W); [|reflexivity].
    simpl.
    now destruct (sign_multisig_tx_hex W g1 w tx)
      as [[[signed|error]|message] g2].
  - destruct (has_sign_multisig_tx_hex W); [|reflexivity].
    simpl.
    now destruct (sign_multisig_tx_hex W (wasm s) w tx)
      as [[[signed|error]|message] g2].
Qed.

Lemma cleanup_fold_erase now l : forall s,
  fold_left (cleanup_entry (seedless W) now) l (erase s) =
  erase (fold_left (cleanup_entry W now) l s).
Proof.
  induction l as [|[id escrow] rest IH]; cbn [fold_left]; intros s; auto.
  rewrite <- IH. f_equal. unfold cleanup_entry.
  now destruct (now - p_created_at escrow >? PENDING_TTL_MS).
Qed.

Lemma erase_finalized s id info w :
  erase
    (set_activeWallets (JsMap.set id w (activeWallets s))
       (saveBountyState
          (set_bountyData (JsMap.set id info (bountyData s))
             (set_pendingEscrows (JsMap.delete id (pendingEscrows s)) s))))
  = set_activeWallets (JsMap.set id w (activeWallets (erase s)))
      (saveBountyState
         (set_bountyData
            (JsMap.set id (erase_seed info) (bountyData (erase s)))
            (set_pendingEscrows
               (JsMap.delete id (pendingEscrows (erase s))) (erase s)))).
Proof.
  unfold erase, set_activeWallets, saveBountyState, set_bountyData,
    set_pendingEscrows.
  simpl. now rewrite set_erase.
Qed.

(** Every event is served by the seed-free server exactly as by the real
    one, and the two stay related by [erase]. *)
Lemma step_erase e s :
  step (seedless W) e (erase s) =
  (fst (step W e s), erase (snd (step W e s))).
Proof.
  destruct e; cbn [step].
  - unfold health. cbn [erase isInitialized pendingEscrows bountyData].
    now rewrite size_erase.
  - unfold init_escrow, catch.
    cbn [erase isInitialized bountyData pendingEscrows].
    rewrite has_erase.
    destruct (negb (isInitialized s)); [reflexivity|].
    destruct (not_str (ib_bounty_id req)); [reflexivity|].
    destruct (JsMap.has _ (bountyData s)); [reflexivity|].
    destruct (JsMap.get _ (pendingEscrows s)) as [old|]; cbv zeta;
      cbn [seedless prepare_multisig enable_multisig_experimental
           create_random WasmWallet wallet_delete wasm log delete_wallet
           set_pendingEscrows next_wallet];
      now destruct (prepare_multisig W _ _) as [[[info|error]|message] g4].
  - unfold finalize_escrow, catch.
    cbn [erase isInitialized bountyData pendingEscrows].
    destruct (negb (isInitialized s)); [reflexivity|].
    destruct (finalize_missing req); [reflexivity|].
    destruct (JsMap.get _ (pendingEscrows s)) as [p|]; [|reflexivity].
    cbv zeta.
    cbn [seedless make_multisig exchange_multisig_keys get_seed wasm log
         set_wasm].
    destruct (make_multisig W _ _ _ _ _) as [[[round2|error]|message] g1];
      try reflexivity.
    destruct (exchange_multisig_keys W _ _ _ _)
      as [[[kex|error]|message] g2]; try reflexivity.
    cbn [fst snd]. f_equal.
    match goal with
    | |- _ = erase (set_activeWallets _ (saveBountyState
                      (set_bountyData _ (set_pendingEscrows _ ?x)))) =>
        set (s4 := x)
    end.
    match goal with
    | |- context [log ?l (set_wasm g2 (set_wasm g1 (log ?l' (erase s))))] =>
        change (log l (set_wasm g2 (set_wasm g1 (log l' (erase s)))))
          with (erase s4)
    end.
    clearbody s4. symmetry. exact (erase_finalized s4 _ _ _).
  - unfold sync_outputs, catch.
    cbn [erase isInitialized bountyData activeWallets].
    rewrite get_erase.
    destruct (negb (isInitialized s)); [reflexivity|].
    destruct (not_str (sb_bounty_id req)); [reflexivity|].
    destruct (JsMap.get _ (bountyData s)) as [info|]; [|reflexivity].
    cbn [option_map].
    destruct (JsMap.get _ (activeWallets s)) as [w|]; [|reflexivity].
    cbn [seedless export_multisig_info import_multisig_info wasm set_wasm].
    destruct (export_multisig_info W _ _) as [[[export|error]|message] g1];
      try reflexivity.
    destruct (sb_other_multisig_info req) as [other|]; [|reflexivity].
    now destruct (import_multisig_info W _ _ _)
      as [[[n|error]|message] g2].
  - unfold sign_refund.
    cbn [erase isInitialized bountyData activeWallets].
    rewrite get_erase.
    destruct (negb (isInitialized s)); [reflexivity|].
    destruct (refund_missing req); [reflexivity|].
    destruct (JsMap.get _ (bountyData s)) as [info|]; [|reflexivity].
    cbn [option_map erase_seed deadline_block].
    destruct (_ <? _); [reflexivity|].
    destruct (JsMap.get _ (activeWallets s)) as [w|]; [|reflexivity].
    change (mkState (isInitialized s) (wasm s) (next_wallet s)
              (pendingEscrows s) (erase_seeds (bountyData s))
              (activeWallets s) (erase_seeds (bounties_json s))
              (deleted s) (console s)) with (erase s).
    rewrite describe_and_sign_erase.
    now destruct (describe_and_sign W _ _ _ _ s).
  - unfold sign_payout.
    cbn [erase isInitialized bountyData activeWallets].
    rewrite get_erase.
    destruct (negb (isInitialized s)); [reflexivity|].
    destruct (_ || _); [reflexivity|].
    destruct (JsMap.get _ (bountyData s)) as [info|]; [|reflexivity].
    cbn [option_map].
    destruct (JsMap.get _ (activeWallets s)) as [w|]; [|reflexivity].
    cbv zeta.
    match goal with
    | |- context [describe_and_sign (seedless W) ?k ?b ?t ?w (log ?l ?x)] =>
        change (log l x) with (erase (log l s))
    end.
    rewrite describe_and_sign_erase.
    now destruct (describe_and_sign W _ _ _ _ _).
  - unfold get_bounty.
    cbn [erase bountyData pendingEscrows activeWallets].
    rewrite get_erase.
    now destruct (JsMap.get id (bountyData s)).
  - unfold get_bounties.
    cbn [erase bountyData pendingEscrows].
    now rewrite summary_erase.
  - unfold cleanup. cbn [erase pendingEscrows].
    change (mkState (isInitialized s) (wasm s) (next_wallet s)
              (pendingEscrows s) (erase_seeds (bountyData s))
              (activeWallets s) (erase_seeds (bounties_json s))
              (deleted s) (console s)) with (erase s).
    now rewrite cleanup_fold_erase.
Qed.

Lemma run_erase es : forall s,
  run (seedless W) es (erase s) =
  (fst (run W es s), erase (snd (run W es s))).
Proof.
  induction es as [|e rest IH]; cbn [run]; intros s; auto.
  rewrite step_erase. destruct (step W e s) as [r s1]. cbn [fst snd].
  rewrite IH. now destruct (run W rest s1).
Qed.

Lemma summaries_hide_seed (m : JsMap.t bountyInfo) :
  ~ In "wallet_mnemonic" (flat_map json_keys (map bounty_summary m)).
Proof.
  induction m as [|[k v] rest IH]; simpl; [tauto|].
  intros H. repeat (destruct H as [H|H]; [discriminate|]). now apply IH.
Qed.

End Secrecy.

(** ** What the responses contain *)

Section Responses.
Context {G : Type} (W : WasmModule G).
Implicit Types (s : state G).

(** C8.  For every state and every list of events (requests to the eight
    routes with any bodies, and ticks of the timer), the responses are
    those of a server from which every stored [wallet_mnemonic] has been
    erased and whose engine exports no seed: no response depends on a
    seed.  In particular the responses of [GET /bounty/:id], of
    [GET /bounties] and of [finalize-escrow] have no member named
    [wallet_mnemonic]; the first is made of the id, the deadline, the
    address, the readiness flag, the creation time and the residency
    flag of the record. *)
Theorem responses_hide_seed s :
  (forall es, fst (run (seedless W) es (erase s)) = fst (run W es s))
  /\ (forall id, ~ In "wallet_mnemonic" (json_keys (body (get_bounty id s))))
  /\ (forall id info,
      JsMap.get id (bountyData s) = Some info ->
      get_bounty id s =
      mkResponse 200
        (JObj [("bounty_id", JStr (b_bounty_id info));
               ("deadline_block", JNum (deadline_block info));
               ("multisig_address", JStr (multisig_address info));
               ("is_ready", JBool (is_ready info));
               ("created_at", JStr (created_at info));
               ("wallet_in_memory",
                JBool (JsMap.has id (activeWallets s)))]))
  /\ ~ In "wallet_mnemonic" (json_keys (body (get_bounties s)))
  /\ (forall iso_now req,
      ~ In "wallet_mnemonic"
          (json_keys (body (fst (finalize_escrow W iso_now req s))))).
Proof.
  split; [|split; [|split; [|split]]].
  - intros es. now rewrite run_erase.
  - intros id. unfold get_bounty.
    repeat break_match; simpl; intros H;
      repeat (destruct H as [H|H]; [discriminate|]); exact H.
  - intros id info Hinfo. unfold get_bounty. now rewrite Hinfo.
  - unfold get_bounties. cbn [body res_json json_keys].
    intros H. cbn [app] in H. rewrite app_nil_r in H.
    repeat (destruct H as [H|H]; [discriminate|]).
    now apply summaries_hide_seed in H.
  - intros iso_now req. unfold finalize_escrow, catch.
    repeat break_match; simpl; intros H;
      repeat (destruct H as [H|H]; [discriminate|]); exact H.
Qed.

(** C9.  On the running server, for an id with a bounty record and a
    resident wallet whose export succeeds, [sync-outputs] answers 200 with
    the exported payload whether no counterpart array is supplied, the
    import of the supplied array succeeds, or it fails; in the last case
    the failure is written to the console as a warning. *)
Theorem sync_outputs_import_failure s id info w exported g1 :
  reachable W s ->
  JsMap.get id (bountyData s) = Some info ->
  JsMap.get id (activeWallets s) = Some w ->
  export_multisig_info W (wasm s) w = (Returned (Success exported), g1) ->
  let ok :=
    mkResponse 200
      (JObj [("success", JBool true);
             ("bounty_id", JStr id);
             ("guardian_multisig_info", JStr exported)]) in
  (forall other reason g2,
     import_multisig_info W g1 w other = (Returned (Failure reason), g2) ->
     exists s',
       sync_outputs W (mkSyncBody (Some id) (Some other)) s = (ok, s')
       /\ console s' =
          (console s
           ++ [("[Guardian] Import multisig info warning: " ++ reason)%string])%list)
  /\ (forall other n g2,
      import_multisig_info W g1 w other = (Returned (Success n), g2) ->
      fst (sync_outputs W (mkSyncBody (Some id) (Some other)) s) = ok)
  /\ fst (sync_outputs W (mkSyncBody (Some id) None) s) = ok.
Proof.
  intros Hr Hinfo Hw Hexport ok.
  pose proof (reachable_wf W s Hr) as Hwf.
  pose proof (wf_initialized _ Hwf) as Hinit.
  assert (Hid : id <> "").
  { intros ->. apply (wf_active_ids _ Hwf). eapply get_keys; eauto. }
  apply String.eqb_neq in Hid.
  unfold sync_outputs. simpl.
  rewrite Hinit, Hid, Hinfo, Hw, Hexport. simpl.
  split; [|split].
  - intros other reason g2 Himport. rewrite Himport.
    eexists. split; reflexivity.
  - intros other n g2 Himport. now rewrite Himport.
  - reflexivity.
Qed.

(** C10.  On the running server [finalize-escrow] answers 400 "Missing
    required fields" and changes nothing as soon as [deadline_block] is 0
    or one of the four round payloads is the empty string, whatever the
    other fields hold.  For a body in which all six fields are present the
    guard is exactly the test that the id or a payload is empty or the
    deadline is 0. *)
Theorem finalize_rejects_falsy_fields s iso_now req :
  reachable W s ->
  fb_deadline_block req = Some 0
  \/ fb_server_round1 req = Some "" \/ fb_server_round2 req = Some ""
  \/ fb_worker_round1 req = Some "" \/ fb_worker_round2 req = Some "" ->
  finalize_escrow W iso_now req s =
  (mkResponse 400
     (JObj [("error",
             JStr "Missing required fields: bounty_id, deadline_block, server_round1, server_round2, worker_round1, worker_round2")]),
   s)
  /\ (forall id d a b c e,
      finalize_missing
        (mkFinalizeBody (Some id) (Some d) (Some a) (Some b) (Some c) (Some e))
      = (String.eqb id "" || Z.eqb d 0 || String.eqb a "" || String.eqb b ""
         || String.eqb c "" || String.eqb e "")).
Proof.
  intros Hr Hfalsy.
  pose proof (wf_initialized _ (reachable_wf W s Hr)) as Hinit.
  split; [|reflexivity].
  unfold finalize_escrow. rewrite Hinit. cbn [negb].
  assert (Hmiss : finalize_missing req = true).
  { unfold finalize_missing.
    destruct Hfalsy as [H|[H|[H|[H|H]]]]; rewrite H; simpl;
      rewrite ?orb_true_r; reflexivity. }
  now rewrite Hmiss.
Qed.

End Responses.

(** ** Concrete runs against the deterministic engine *)

Module Runs.
Import TestDouble.

Lemma reachable_begun : reachable engine begun.
Proof. unfold begun. apply reach_step, reach_boot. Qed.

Lemma reachable_finalized : reachable engine finalized.
Proof. unfold finalized. apply reach_step, reachable_begun. Qed.

Lemma sign_refund_deadline_gate_witness :
  sign_refund engine (refund_b1 100) finalized =
  (mkResponse 403
     (JObj [("error", JStr "Deadline not reached");
            ("current_block", JNum 100);
            ("deadline_block", JNum 1000000);
            ("blocks_remaining", JNum 999900)]), finalized)
  /\ sign_refund engine (refund_b1 1000000) finalized =
     describe_and_sign engine Refund "b1" "ab" 0%nat finalized.
Proof.
  split.
  - apply (proj1 (sign_refund_deadline_gate engine finalized "b1" "ab" 100
                    b1_info reachable_finalized
                    ltac:(discriminate) ltac:(discriminate) eq_refl)).
    reflexivity.
  - apply (proj2 (sign_refund_deadline_gate engine finalized "b1" "ab"
                    1000000 b1_info reachable_finalized
                    ltac:(discriminate) ltac:(discriminate) eq_refl)).
    + discriminate.
    + reflexivity.
Defined.

Lemma finalize_round_order_witness :
  exists p guardian_round2 kex g1 g2,
    JsMap.get "b1" (pendingEscrows begun) = Some p
    /\ make_multisig engine (wasm begun) (wallet p) "" 2
         [guardian_round1 p; "s1"; "w1"]
       = (Returned (Success guardian_round2), g1)
    /\ exchange_multisig_keys engine g1 (wallet p) ""
         [guardian_round2; "s2"; "w2"]
       = (Returned (Success kex), g2)
    /\ fst (finalize_escrow engine "2026-01-01T00:00:00.000Z"
              (finalize_b1 1000000 "s1") begun)
       = mkResponse 200
           (JObj [("success", JBool true);
                  ("bounty_id", JStr "b1");
                  ("guardian_round1", JStr (guardian_round1 p));
                  ("guardian_round2", JStr guardian_round2);
                  ("multisig_address", JStr (kex_address kex));
                  ("is_ready", JBool (kex_is_ready kex))]).
Proof.
  exact (finalize_round_order engine begun "2026-01-01T00:00:00.000Z"
           (finalize_b1 1000000 "s1") _ _ eq_refl eq_refl).
Defined.

Lemma finalize_failures_witness :
  finalize_escrow engine "t" (finalize_b1 7 "s1") (boot 0%nat []) =
  (mkResponse 404
     (JObj [("error",
             JStr "Pending escrow not found. Call /init-escrow first.");
            ("hint",
             JStr "The escrow may have expired (5 min timeout) or server restarted.")]),
   boot 0%nat [])
  /\ fst (finalize_escrow engine "t" (finalize_b1 7 "bad") begun) =
     mkResponse 500
       (JObj [("error", JStr "Failed to make multisig: bad round1")])
  /\ pendingEscrows (snd (finalize_escrow engine "t" (finalize_b1 7 "bad") begun))
     = pendingEscrows begun.
Proof.
  split.
  - apply (proj1 (finalize_failures engine (boot 0%nat []) "t"
                    (finalize_b1 7 "s1") (reach_boot engine 0%nat [])
                    eq_refl)).
    reflexivity.
  - pose proof (proj1 (proj2 (finalize_failures engine begun "t"
                                (finalize_b1 7 "bad") reachable_begun eq_refl)
                         b1_pending _ _ eq_refl
                         (surjective_pairing _))
                  "bad round1" 5%nat eq_refl) as H.
    destruct H as [Hr [Hp _]]. split.
    + exact Hr.
    + exact Hp.
Defined.

Lemma init_escrow_conflict_witness :
  init_escrow engine 2000 b1 finalized =
  (mkResponse 409 (JObj [("error", JStr "Bounty already finalized")]),
   finalized)
  /\ status (fst (init_escrow engine 2000 b1 begun)) <> 409.
Proof.
  split.
  - apply (proj1 (init_escrow_conflict engine finalized 2000 "b1"
                    reachable_finalized ltac:(discriminate)) b1_info).
    reflexivity.
  - apply (proj2 (init_escrow_conflict engine begun 2000 "b1"
                    reachable_begun ltac:(discriminate)) b1_pending).
    reflexivity.
Defined.

(** C4, as stated, fails: [b1] is in the pending table of [begun], and
    [init-escrow] for it is answered 200, not 409, after creating wallet 1
    and storing a new pending escrow. *)
Lemma init_escrow_pending_id_accepted :
  JsMap.has "b1" (pendingEscrows begun) = true
  /\ fst (init_escrow engine 2000 b1 begun) =
     mkResponse 200
       (JObj [("success", JBool true);
              ("bounty_id", JStr "b1");
              ("guardian_round1", JStr "round1-1")])
  /\ status (fst (init_escrow engine 2000 b1 begun)) <> 409
  /\ next_wallet begun = 1%nat
  /\ next_wallet (snd (init_escrow engine 2000 b1 begun)) = 2%nat
  /\ JsMap.get "b1" (pendingEscrows (snd (init_escrow engine 2000 b1 begun)))
     = Some (mkPending 1%nat "round1-1" 2000).
Proof.
  vm_compute. repeat split; discriminate.
Qed.

Lemma init_escrow_twice_witness :
  (exists s',
     init_escrow engine 2000 b1 begun =
     (mkResponse 200
        (JObj [("success", JBool true);
               ("bounty_id", JStr "b1");
               ("guardian_round1", JStr "round1-1")]), s')
     /\ deleted s' = (deleted begun ++ [0%nat])%list
     /\ JsMap.get "b1" (pendingEscrows s')
        = Some (mkPending 1%nat "round1-1" 2000)
     /\ 1%nat <> 0%nat
     /\ (forall k, k <> "b1" ->
         JsMap.get k (pendingEscrows s') = JsMap.get k (pendingEscrows begun)))
  /\ init_escrow engine 2000 b1 finalized =
     (mkResponse 409 (JObj [("error", JStr "Bounty already finalized")]),
      finalized).
Proof.
  split.
  - exact (proj1 (init_escrow_twice engine begun 2000 "b1" reachable_begun)
             b1_pending eq_refl "round1-1" 9%nat eq_refl).
  - apply (proj2 (init_escrow_twice engine finalized 2000 "b1"
                    reachable_finalized) b1_info).
    + discriminate.
    + reflexivity.
Defined.

(** C6, as stated, fails: [begin] for [b1] succeeded at time 1000, and
    after the timer ran at time 400000 the id is in neither table. *)
Lemma evicted_id_in_neither_table :
  status (fst (init_escrow engine 1000 b1 (boot 0%nat []))) = 200
  /\ JsMap.has "b1" (pendingEscrows begun) = true
  /\ JsMap.has "b1" (pendingEscrows (snd (step engine (Cleanup 400000) begun)))
     = false
  /\ JsMap.has "b1" (bountyData (snd (step engine (Cleanup 400000) begun)))
     = false.
Proof.
  vm_compute. repeat split.
Qed.

Lemma pending_registry_exclusive_witness :
  ~ (JsMap.has "b1" (pendingEscrows begun) = true
     /\ JsMap.has "b1" (bountyData begun) = true)
  /\ (JsMap.has "b1" (pendingEscrows finalized) = false
      /\ JsMap.has "b1" (bountyData finalized) = true)
  /\ (JsMap.has "b1" (pendingEscrows (snd (step engine (Cleanup 400000) begun)))
      = false
      /\ JsMap.has "b1" (bountyData (snd (step engine (Cleanup 400000) begun)))
         = false).
Proof.
  pose proof (pending_registry_exclusive engine begun "b1" reachable_begun)
    as [H1 [_ [H3 [_ H5]]]].
  split; [exact H1|]. split.
  - exact (H3 "2026-01-01T00:00:00.000Z" (finalize_b1 1000000 "s1") _ _
             eq_refl (surjective_pairing _) eq_refl).
  - apply (H5 400000 b1_pending eq_refl). reflexivity.
Defined.

Lemma cleanup_evicts_stale_witness :
  JsMap.get "b1" (pendingEscrows (cleanup engine 400000 begun)) = None
  /\ count_occ Nat.eq_dec (deleted (cleanup engine 400000 begun)) 0%nat
     = 1%nat.
Proof.
  apply (proj1 (proj2 (proj2 (cleanup_evicts_stale engine begun 400000 "b1"
                                b1_pending reachable_begun eq_refl)))).
  reflexivity.
Defined.

Lemma responses_hide_seed_witness :
  fst (run (seedless engine)
         [GetBounty "b1"; GetBounties; SignRefund (refund_b1 100)]
         (erase finalized))
  = fst (run engine
           [GetBounty "b1"; GetBounties; SignRefund (refund_b1 100)]
           finalized).
Proof.
  exact (proj1 (responses_hide_seed engine finalized)
           [GetBounty "b1"; GetBounties; SignRefund (refund_b1 100)]).
Defined.

Lemma sync_outputs_import_failure_witness :
  exists s',
    sync_outputs engine (mkSyncBody (Some "b1") (Some ["bad"])) finalized =
    (mkResponse 200
       (JObj [("success", JBool true);
              ("bounty_id", JStr "b1");
              ("guardian_multisig_info", JStr "export-0")]), s')
    /\ console s' =
       (console finalized
        ++ ["[Guardian] Import multisig info warning: bad info"])%list.
Proof.
  exact (proj1 (sync_outputs_import_failure engine finalized "b1" b1_info
                  0%nat "export-0" 7%nat reachable_finalized
                  eq_refl eq_refl eq_refl)
           ["bad"] "bad info" 8%nat eq_refl).
Defined.

Lemma finalize_rejects_falsy_fields_witness :
  finalize_escrow engine "t" (finalize_b1 0 "s1") begun =
  (mkResponse 400
     (JObj [("error",
             JStr "Missing required fields: bounty_id, deadline_block, server_round1, server_round2, worker_round1, worker_round2")]),
   begun)
  /\ finalize_escrow engine "t" (finalize_b1 1000000 "") begun =
     (mkResponse 400
        (JObj [("error",
                JStr "Missing required fields: bounty_id, deadline_block, server_round1, server_round2, worker_round1, worker_round2")]),
      begun).
Proof.
  split.
  - exact (proj1 (finalize_rejects_falsy_fields engine begun "t"
                    (finalize_b1 0 "s1") reachable_begun
                    (or_introl eq_refl))).
  - exact (proj1 (finalize_rejects_falsy_fields engine begun "t"
                    (finalize_b1 1000000 "") reachable_begun
                    (or_intror (or_introl eq_refl)))).
Defined.

End Runs.

(** * Further properties of the server *)

(** ** Reading the file back *)

Section FileFacts.
Context {V : Type}.
Implicit Types (m : JsMap.t V) (k : string) (v : V).

Lemma set_absent k v m :
  ~ In k (JsMap.keys m) -> JsMap.set k v m = (m ++ [(k, v)])%list.
Proof.
  induction m as [|[k0 v0] rest IH]; simpl; auto.
  intros Hnot. destruct (String.eqb k k0) eqn:E.
  - apply String.eqb_eq in E. subst. tauto.
  - rewrite IH; tauto.
Qed.

Lemma length_set_absent k v m :
  JsMap.get k m = None ->
  JsMap.size (JsMap.set k v m) = JsMap.size m + 1.
Proof.
  intros H. apply get_None_not_key in H.
  unfold JsMap.size. rewrite (set_absent k v m H), length_app. simpl. lia.
Qed.

Lemma delete_absent k m :
  ~ In k (JsMap.keys m) -> JsMap.delete k m = m.
Proof.
  induction m as [|[k0 v0] rest IH]; simpl; auto.
  intros Hnot. destruct (String.eqb k k0) eqn:E.
  - apply String.eqb_eq in E. subst. tauto.
  - rewrite IH; tauto.
Qed.

Lemma length_delete_nat k v m :
  NoDup (JsMap.keys m) -> JsMap.get k m = Some v ->
  S (List.length (JsMap.delete k m)) = List.length m.
Proof.
  induction m as [|[k0 v0] rest IH]; simpl; [discriminate|].
  intros Hnd. inversion Hnd as [|? ? Hnotin Hnd']; subst.
  destruct (String.eqb k k0) eqn:E.
  - intros _. apply String.eqb_eq in E. subst k0.
    now rewrite (delete_absent k rest Hnotin).
  - intros Hget. simpl. now rewrite (IH Hnd' Hget).
Qed.

Lemma length_delete_present k v m :
  NoDup (JsMap.keys m) -> JsMap.get k m = Some v ->
  JsMap.size (JsMap.delete k m) = JsMap.size m - 1.
Proof.
  intros Hnd Hget. unfold JsMap.size.
  rewrite <- (length_delete_nat k v m Hnd Hget). lia.
Qed.

End FileFacts.

Section LoadFacts.

Lemma fold_set_NoDup (l : JsMap.t bountyInfo) : forall m,
  NoDup (JsMap.keys m) ->
  NoDup (JsMap.keys
           (fold_left
              (fun acc (e : string * bountyInfo) =>
                 JsMap.set (fst e) (snd e) acc) l m)).
Proof.
  induction l as [|[k v] rest IH]; simpl; intros m Hnd; auto.
  apply IH. now apply NoDup_keys_set.
Qed.

Lemma loadBountyState_NoDup file : NoDup (JsMap.keys (loadBountyState file)).
Proof.
  unfold loadBountyState. apply fold_set_NoDup. constructor.
Qed.

Lemma fold_set_append (l : JsMap.t bountyInfo) : forall m,
  NoDup (JsMap.keys (m ++ l)%list) ->
  fold_left
    (fun acc (e : string * bountyInfo) => JsMap.set (fst e) (snd e) acc) l m
  = (m ++ l)%list.
Proof.
  induction l as [|[k v] rest IH]; simpl; intros m Hnd.
  - now rewrite app_nil_r.
  - assert (Hnot : ~ In k (JsMap.keys m)).
    { unfold JsMap.keys in *. rewrite map_app in Hnd. simpl in Hnd.
      apply NoDup_remove_2 in Hnd. intros H. apply Hnd.
      apply in_or_app. now left. }
    rewrite (set_absent k v m Hnot).
    rewrite IH; rewrite <- app_assoc; simpl; auto.
Qed.

(** A file with distinct keys is read back as it is. *)
Lemma loadBountyState_id m :
  NoDup (JsMap.keys m) -> loadBountyState m = m.
Proof.
  intros Hnd. unfold loadBountyState. now apply (fold_set_append m []).
Qed.

End LoadFacts.

(** ** Resources: wallets, the registry and the file *)

Section Resources.
Context {G : Type} (W : WasmModule G).
Implicit Types (s : state G).

Lemma same_tables_refl s : same_tables s s.
Proof. repeat split. Qed.

Lemma describe_and_sign_tables k bounty_id tx w s :
  same_tables s (snd (describe_and_sign W k bounty_id tx w s)).
Proof.
  unfold describe_and_sign, catch.
  repeat break_match; simpl snd;
    repeat match goal with
           | H : (_, _) = (_, _) |- _ => inversion H; subst; clear H
           end;
    repeat split.
Qed.

Lemma sync_outputs_tables req s :
  same_tables s (snd (sync_outputs W req s)).
Proof.
  unfold sync_outputs, catch. repeat break_match; simpl snd; repeat split.
Qed.

Lemma sign_refund_tables req s :
  same_tables s (snd (sign_refund W req s)).
Proof.
  unfold sign_refund.
  repeat break_match; try apply same_tables_refl.
  apply describe_and_sign_tables.
Qed.

Lemma sign_payout_tables req s :
  same_tables s (snd (sign_payout W req s)).
Proof.
  unfold sign_payout.
  repeat break_match; try apply same_tables_refl;
    match goal with
    | |- same_tables s (snd (describe_and_sign W ?k ?b ?t ?w ?x)) =>
        pose proof (describe_and_sign_tables k b t w x) as H
    end;
    unfold same_tables in *; simpl in H; exact H.
Qed.

Lemma ro_same s s' :
  resident_ok s ->
  next_wallet s' = next_wallet s ->
  pendingEscrows s' = pendingEscrows s ->
  bountyData s' = bountyData s ->
  activeWallets s' = activeWallets s ->
  bounties_json s' = bounties_json s ->
  deleted s' = deleted s ->
  resident_ok s'.
Proof.
  intros [H1 H2 H2' H3 H4] E1 E2 E3 E4 E5 E6.
  unfold pending_wallets in *.
  constructor; unfold pending_wallets;
    rewrite ?E1, ?E2, ?E3, ?E4, ?E5, ?E6; assumption.
Qed.

Lemma ro_same_tables s s' :
  resident_ok s -> same_tables s s' -> resident_ok s'.
Proof.
  intros Hro (_ & E1 & E2 & E3 & E4 & E5 & E6).
  now apply (ro_same s s').
Qed.

Lemma ro_boot (g : G) file : resident_ok (boot g file).
Proof.
  constructor; simpl.
  - constructor.
  - discriminate.
  - discriminate.
  - apply loadBountyState_NoDup.
  - reflexivity.
Qed.

Lemma NoDup_snoc {A : Type} (l : list A) (a : A) :
  NoDup l -> ~ In a l -> NoDup (l ++ [a]).
Proof.
  induction l as [|x rest IH]; simpl; intros Hnd Hnot.
  - constructor; [tauto | constructor].
  - inversion Hnd as [|? ? Hx Hrest]; subst. constructor.
    + intros H. apply in_app_or in H. destruct H as [H|[H|[]]]; [tauto|].
      subst. tauto.
    + apply IH; tauto.
Qed.

Lemma pending_wallet_In s id p :
  JsMap.get id (pendingEscrows s) = Some p ->
  In (wallet p) (pending_wallets s).
Proof.
  intros Hget. unfold pending_wallets, JsMap.values. apply in_map.
  apply get_In in Hget.
  change (In (snd (id, p)) (map snd (pendingEscrows s))). now apply in_map.
Qed.

Lemma ro_drop_pending s id old :
  wf s -> resident_ok s ->
  JsMap.get id (pendingEscrows s) = Some old ->
  resident_ok
    (set_pendingEscrows
       (JsMap.delete id (pendingEscrows (delete_wallet W (wallet old) s)))
       (delete_wallet W (wallet old) s)).
Proof.
  intros Hwf [H1 H2 H2' H3 H4] Hget.
  pose proof (pending_wallet_In s id old Hget) as Hold.
  constructor; simpl; auto.
  - apply NoDup_snoc; auto. now apply (wf_live _ Hwf).
  - intros k w Hk. destruct (H2 k w Hk) as (Hlt & Hlive & Hnp).
    split; [exact Hlt|]. split.
    + intros Hin. apply in_app_or in Hin. destruct Hin as [Hin|[Hin|[]]].
      * tauto.
      * subst w. tauto.
    + intros Hin. apply Hnp. unfold pending_wallets in *.
      now apply In_values_delete in Hin.
Qed.

Lemma ro_finalized s id p info :
  wf s -> resident_ok s ->
  JsMap.get id (pendingEscrows s) = Some p ->
  resident_ok
    (set_activeWallets (JsMap.set id (wallet p) (activeWallets s))
       (saveBountyState
          (set_bountyData (JsMap.set id info (bountyData s))
             (set_pendingEscrows (JsMap.delete id (pendingEscrows s)) s)))).
Proof.
  intros Hwf [H1 H2 H2' H3 H4] Hget.
  pose proof (pending_wallet_In s id p Hget) as Hp.
  constructor; simpl; auto.
  - intros k w Hk. unfold pending_wallets. simpl.
    destruct (string_dec k id) as [->|Hne].
    + rewrite get_set_eq in Hk. inversion Hk; subst w.
      split; [now apply (wf_allocated _ Hwf)|].
      split; [now apply (wf_live _ Hwf)|].
      apply (deleted_value_gone wallet id p _ (wf_wallets _ Hwf) Hget).
    + rewrite get_set_ne in Hk by assumption.
      destruct (H2 k w Hk) as (Hlt & Hlive & Hnp).
      split; [exact Hlt|]. split; [exact Hlive|].
      intros Hin. apply Hnp. unfold pending_wallets.
      now apply In_values_delete in Hin.
  - intros k w Hk. destruct (string_dec k id) as [->|Hne].
    + apply has_true. eexists. apply get_set_eq.
    + rewrite get_set_ne in Hk by assumption.
      apply has_set_mono. now apply (H2' k w).
  - now apply NoDup_keys_set.
  - apply loadBountyState_id. now apply NoDup_keys_set.
Qed.

Lemma init_escrow_ro now req s :
  wf s -> resident_ok s -> resident_ok (snd (init_escrow W now req s)).
Proof.
  intros Hwf Hro. unfold init_escrow.
  destruct (negb (isInitialized s)); [exact Hro|].
  destruct (not_str (ib_bounty_id req)) eqn:Hid; [exact Hro|].
  destruct (JsMap.has _ (bountyData s)) eqn:Hb; [exact Hro|].
  set (id := str_val (ib_bounty_id req)) in *.
  set (s1 := match JsMap.get id (pendingEscrows s) with
             | Some old => _ | None => s end).
  assert (H1 : wf s1 /\ resident_ok s1).
  { subst s1. destruct (JsMap.get id (pendingEscrows s)) as [old|] eqn:Hp.
    - split; [now apply wf_drop_pending | now apply ro_drop_pending].
    - split; assumption. }
  destruct H1 as [Hwf1 Hro1]. clearbody s1.
  cbv zeta.
  destruct (prepare_multisig W _ _) as [prepResult g4].
  set (s3 := set_wasm g4 _).
  assert (Hro3 : resident_ok s3).
  { destruct Hro1 as [H1 H2 H2' H3 H4].
    constructor; simpl; auto.
    intros k w Hk. destruct (H2 k w Hk) as (Hlt & Hlive & Hnp).
    split; [lia | tauto]. }
  assert (Hres : forall k w, JsMap.get k (activeWallets s3) = Some w ->
                             w <> next_wallet s1).
  { intros k w Hk. destruct (ro_resident _ Hro1 k w Hk) as (Hlt & _). lia. }
  assert (Hundeleted : ~ In (next_wallet s1) (deleted s3)).
  { intros H. apply (wf_deleted _ Hwf1) in H. lia. }
  clearbody s3.
  destruct prepResult as [[multisig_info|error]|message]; simpl snd.
  - destruct Hro3 as [H1 H2 H2' H3 H4].
    constructor; simpl; auto.
    intros k w Hk. destruct (H2 k w Hk) as (Hlt & Hlive & Hnp).
    split; [exact Hlt|]. split; [exact Hlive|].
    unfold pending_wallets. simpl. intros Hin.
    apply In_values_set in Hin. simpl in Hin. destruct Hin as [Hin|Hin].
    + now apply (Hres k w Hk).
    + now apply Hnp.
  - destruct Hro3 as [H1 H2 H2' H3 H4].
    constructor; simpl; auto.
    + now apply NoDup_snoc.
    + intros k w Hk. destruct (H2 k w Hk) as (Hlt & Hlive & Hnp).
      split; [exact Hlt|]. split; [|exact Hnp].
      intros Hin. apply in_app_or in Hin. destruct Hin as [Hin|[Hin|[]]].
      * tauto.
      * symmetry in Hin. now apply (Hres k w Hk).
  - eapply ro_same; [exact Hro3 | reflexivity ..].
Qed.

Lemma finalize_escrow_ro iso_now req s :
  wf s -> resident_ok s ->
  resident_ok (snd (finalize_escrow W iso_now req s)).
Proof.
  intros Hwf Hro. unfold finalize_escrow.
  destruct (negb (isInitialized s)); [exact Hro|].
  destruct (finalize_missing req) eqn:Hmiss; [exact Hro|].
  destruct (JsMap.get _ (pendingEscrows s)) as [p|] eqn:Hp; [|exact Hro].
  cbv zeta.
  destruct (make_multisig W _ _ _ _ _) as [makeResult g1].
  destruct makeResult as [[guardian_round2|error]|message];
    try (simpl snd; eapply ro_same; [exact Hro | reflexivity ..]).
  destruct (exchange_multisig_keys W _ _ _ _) as [kexResult g2].
  destruct kexResult as [[kex|error]|message];
    try (simpl snd; eapply ro_same; [exact Hro | reflexivity ..]).
  cbn [snd].
  set (s4 := log (G:=G) ("[Guardian] Escrow finalized: " ++ kex_address kex) _).
  assert (Hwf4 : wf s4)
    by (subst s4; eapply wf_same; [exact Hwf | reflexivity ..]).
  assert (Hro4 : resident_ok s4)
    by (subst s4; eapply ro_same; [exact Hro | reflexivity ..]).
  assert (Hp4 : JsMap.get (str_val (fb_bounty_id req)) (pendingEscrows s4)
                = Some p) by exact Hp.
  clearbody s4.
  exact (ro_finalized s4 _ p _ Hwf4 Hro4 Hp4).
Qed.

Lemma cleanup_entry_ro now s id escrow :
  wf s -> resident_ok s ->
  JsMap.get id (pendingEscrows s) = Some escrow ->
  resident_ok (cleanup_entry W now s (id, escrow)).
Proof.
  intros Hwf Hro Hget. unfold cleanup_entry.
  destruct (now - p_created_at escrow >? PENDING_TTL_MS); [|exact Hro].
  cbv zeta.
  set (s1 := log _ s).
  assert (Hwf1 : wf s1)
    by (subst s1; eapply wf_same; [exact Hwf | reflexivity ..]).
  assert (Hro1 : resident_ok s1)
    by (subst s1; eapply ro_same; [exact Hro | reflexivity ..]).
  assert (Hget1 : JsMap.get id (pendingEscrows s1) = Some escrow) by exact Hget.
  clearbody s1. now apply ro_drop_pending.
Qed.

Lemma cleanup_fold_ro now l : forall s,
  wf s -> resident_ok s -> NoDup (JsMap.keys l) ->
  (forall k v, In (k, v) l -> JsMap.get k (pendingEscrows s) = Some v) ->
  resident_ok (fold_left (cleanup_entry W now) l s).
Proof.
  induction l as [|[id escrow] rest IH]; cbn [fold_left];
    intros s Hwf Hro Hnd Hin; auto.
  simpl in Hnd. inversion Hnd as [|? ? Hnotin Hnd']; subst.
  assert (Hhere : JsMap.get id (pendingEscrows s) = Some escrow)
    by (apply Hin; now left).
  apply IH; auto.
  - now apply cleanup_entry_wf.
  - now apply cleanup_entry_ro.
  - intros k v Hkv. rewrite cleanup_entry_get.
    destruct (String.eqb k id) eqn:E; simpl.
    + apply String.eqb_eq in E. subst k. exfalso. apply Hnotin.
      change (In (fst (id, v)) (map fst rest)). now apply in_map.
    + apply Hin. now right.
Qed.

Lemma step_ro e s :
  wf s -> resident_ok s -> resident_ok (snd (step W e s)).
Proof.
  intros Hwf Hro. destruct e; cbn [step]; try exact Hro.
  - pose proof (init_escrow_ro now req s Hwf Hro).
    now destruct (init_escrow W now req s).
  - pose proof (finalize_escrow_ro iso_now req s Hwf Hro).
    now destruct (finalize_escrow W iso_now req s).
  - pose proof (ro_same_tables _ _ Hro (sync_outputs_tables req s)).
    now destruct (sync_outputs W req s).
  - pose proof (ro_same_tables _ _ Hro (sign_refund_tables req s)).
    now destruct (sign_refund W req s).
  - pose proof (ro_same_tables _ _ Hro (sign_payout_tables req s)).
    now destruct (sign_payout W req s).
  - simpl. unfold cleanup. apply cleanup_fold_ro; auto.
    + apply (wf_pending_keys _ Hwf).
    + intros k v Hin. apply In_get; auto. apply (wf_pending_keys _ Hwf).
Qed.

Lemma reachable_ro s : reachable W s -> resident_ok s.
Proof.
  induction 1 as [g file|e s Hr IH]; [apply ro_boot|].
  apply step_ro; auto. now apply (reachable_wf W).
Qed.

End Resources.

(** ** The life of an escrow *)

Section Lifecycle.
Context {G : Type} (W : WasmModule G).
Implicit Types (s : state G).


(** X2.  When [init-escrow] reaches the engine (initialized server,
    non-empty id not in the registry) and [prepare_multisig] fails, the
    answer is 500 and no pending escrow is left under the id, not even one
    that was there before.  After a [success: false] result the error
    text is "Failed to prepare multisig: " followed by the reason and the
    new wallet is the last one deleted; after an exception the error text
    is the message and the new wallet is not deleted. *)
Theorem init_escrow_engine_failure s now id :
  isInitialized s = true -> id <> "" ->
  JsMap.get id (bountyData s) = None ->
  let w := next_wallet s in
  let g0 :=
    match JsMap.get id (pendingEscrows s) with
    | Some old => wallet_delete W (wasm s) (wallet old)
    | None => wasm s
    end in
  let released :=
    match JsMap.get id (pendingEscrows s) with
    | Some old => [wallet old]
    | None => []
    end in
  let g :=
    enable_multisig_experimental W
      (create_random W (WasmWallet W g0 w) w NETWORK "English") w in
  (forall reason g',
     prepare_multisig W g w = (Returned (Failure reason), g') ->
     exists s',
       init_escrow W now (mkInitBody (Some id)) s =
       (mkResponse 500
          (JObj [("error", JStr ("Failed to prepare multisig: " ++ reason))]),
        s')
       /\ JsMap.get id (pendingEscrows s') = None
       /\ deleted s' = (deleted s ++ released ++ [w])%list
       /\ next_wallet s' = S w)
  /\ (forall message g',
      prepare_multisig W g w = (Threw message, g') ->
      exists s',
        init_escrow W now (mkInitBody (Some id)) s =
        (mkResponse 500 (JObj [("error", JStr message)]), s')
        /\ JsMap.get id (pendingEscrows s') = None
        /\ deleted s' = (deleted s ++ released)%list
        /\ next_wallet s' = S w).
Proof.
  intros Hinit Hid Hb w g0 released g.
  apply String.eqb_neq in Hid.
  unfold init_escrow, JsMap.has, catch. simpl.
  rewrite Hinit, Hid, Hb. simpl.
  subst g g0 released w.
  destruct (JsMap.get id (pendingEscrows s)) as [old|] eqn:Hp; simpl;
    split; intros r g' Hprep; rewrite Hprep; eexists;
    (split; [reflexivity|]); simpl;
    rewrite ?get_delete_eq, ?app_nil_r, <- ?app_assoc; auto.
Qed.

(** X3.  Right after a successful [init-escrow], [GET /bounty/:id] answers
    the pending placeholder for the id.  Right after a successful
    [finalize-escrow] it answers the record: the deadline of the request,
    the address and readiness flag of the finalize response, the time
    read, and [wallet_in_memory: true]. *)
Theorem get_bounty_follows s id :
  (forall now r s',
     init_escrow W now (mkInitBody (Some id)) s = (r, s') ->
     status r = 200 ->
     get_bounty id s' =
     mkResponse 200
       (JObj [("bounty_id", JStr id);
              ("status", JStr "pending");
              ("message", JStr "Waiting for /finalize-escrow")]))
  /\ (forall iso_now req r s',
      fb_bounty_id req = Some id ->
      finalize_escrow W iso_now req s = (r, s') ->
      status r = 200 ->
      exists round1 round2 address ready,
        r = mkResponse 200
              (JObj [("success", JBool true);
                     ("bounty_id", JStr id);
                     ("guardian_round1", JStr round1);
                     ("guardian_round2", JStr round2);
                     ("multisig_address", JStr address);
                     ("is_ready", JBool ready)])
        /\ get_bounty id s' =
           mkResponse 200
             (JObj [("bounty_id", JStr id);
                    ("deadline_block",
                     JNum (num_val (fb_deadline_block req)));
                    ("multisig_address", JStr address);
                    ("is_ready", JBool ready);
                    ("created_at", JStr iso_now);
                    ("wallet_in_memory", JBool true)])).
Proof.
  split.
  - unfold init_escrow. intros now r s' Hrun Hok.
    destruct (negb (isInitialized s));
      [inversion Hrun; subst; discriminate|].
    destruct (not_str (ib_bounty_id (mkInitBody (Some id))));
      [inversion Hrun; subst; discriminate|].
    simpl str_val in Hrun.
    destruct (JsMap.has id (bountyData s)) eqn:Hb;
      [inversion Hrun; subst; discriminate|].
    cbv zeta in Hrun.
    destruct (prepare_multisig W _ _) as [[[round1|error]|message] g4];
      inversion Hrun; subst; try discriminate.
    unfold get_bounty, JsMap.has. simpl.
    apply has_false in Hb.
    replace (JsMap.get id (bountyData _)) with (@None bountyInfo)
      by (destruct (JsMap.get id (pendingEscrows s)); simpl; now rewrite Hb).
    now rewrite get_set_eq.
  - unfold finalize_escrow. intros iso_now req r s' Hreq Hrun Hok.
    rewrite Hreq in Hrun. simpl str_val in Hrun.
    destruct (negb (isInitialized s));
      [inversion Hrun; subst; discriminate|].
    destruct (finalize_missing req);
      [inversion Hrun; subst; discriminate|].
    destruct (JsMap.get id (pendingEscrows s))
      as [p|]; [|inversion Hrun; subst; discriminate].
    cbv zeta in Hrun.
    destruct (make_multisig W _ _ _ _ _) as [[[round2|error]|message] g1];
      try (inversion Hrun; subst; discriminate).
    destruct (exchange_multisig_keys W _ _ _ _)
      as [[[kex|error]|message] g2];
      try (inversion Hrun; subst; discriminate).
    inversion Hrun; subst r s'. clear Hrun.
    exists (guardian_round1 p), round2, (kex_address kex), (kex_is_ready kex).
    split; [reflexivity|].
    unfold get_bounty, JsMap.has. simpl.
    now rewrite !get_set_eq.
Qed.

End Lifecycle.

(** ** What the server never does *)

Section Safety.
Context {G : Type} (W : WasmModule G).
Implicit Types (s : state G).

(** X4.  On the running server no wallet is deleted twice, and every
    wallet that was deleted is one the server created. *)
Theorem no_wallet_deleted_twice s :
  reachable W s ->
  NoDup (deleted s)
  /\ (forall h, In h (deleted s) -> (h < next_wallet s)%nat).
Proof.
  intros Hr. split.
  - apply (ro_deleted_once _ (reachable_ro W s Hr)).
  - apply (wf_deleted _ (reachable_wf W s Hr)).
Qed.

Lemma cleanup_fold_activeWallets now l : forall s,
  activeWallets (fold_left (cleanup_entry W now) l s) = activeWallets s.
Proof.
  induction l as [|[id escrow] rest IH]; cbn [fold_left]; intros s; auto.
  rewrite IH. unfold cleanup_entry.
  now destruct (now - p_created_at escrow >? PENDING_TTL_MS).
Qed.

Lemma step_record_kept e s id info :
  wf s ->
  JsMap.get id (bountyData s) = Some info ->
  JsMap.get id (bountyData (snd (step W e s))) = Some info.
Proof.
  intros Hwf H. destruct e; cbn [step]; auto.
  - assert (JsMap.get id (bountyData (snd (init_escrow W now req s)))
            = Some info).
    { unfold init_escrow, catch. repeat break_match; simpl; auto. }
    now destruct (init_escrow W now req s).
  - assert (JsMap.get id (bountyData (snd (finalize_escrow W iso_now req s)))
            = Some info).
    { unfold finalize_escrow, catch. repeat break_match; simpl; auto.
      rewrite get_set_ne; auto. intros ->.
      match goal with
      | Hp : JsMap.get _ (pendingEscrows s) = Some _ |- _ =>
          apply get_keys in Hp; apply (wf_disjoint _ Hwf) in Hp
      end.
      congruence. }
    now destruct (finalize_escrow W iso_now req s).
  - destruct (sync_outputs_tables W req s) as (_ & _ & _ & E & _).
    destruct (sync_outputs W req s). simpl in *. now rewrite E.
  - destruct (sign_refund_tables W req s) as (_ & _ & _ & E & _).
    destruct (sign_refund W req s). simpl in *. now rewrite E.
  - destruct (sign_payout_tables W req s) as (_ & _ & _ & E & _).
    destruct (sign_payout W req s). simpl in *. now rewrite E.
  - simpl. unfold cleanup. now rewrite cleanup_fold_bountyData.
Qed.

Lemma step_resident_kept e s id w :
  wf s -> resident_ok s ->
  JsMap.get id (activeWallets s) = Some w ->
  JsMap.get id (activeWallets (snd (step W e s))) = Some w.
Proof.
  intros Hwf Hro H. destruct e; cbn [step]; auto.
  - assert (JsMap.get id (activeWallets (snd (init_escrow W now req s)))
            = Some w).
    { unfold init_escrow, catch. repeat break_match; simpl; auto. }
    now destruct (init_escrow W now req s).
  - assert (JsMap.get id
              (activeWallets (snd (finalize_escrow W iso_now req s)))
            = Some w).
    { unfold finalize_escrow, catch. repeat break_match; simpl; auto.
      rewrite get_set_ne; auto. intros ->.
      apply (ro_recorded _ Hro) in H. apply has_true in H.
      destruct H as [info Hinfo].
      match goal with
      | Hp : JsMap.get _ (pendingEscrows s) = Some _ |- _ =>
          apply get_keys in Hp; apply (wf_disjoint _ Hwf) in Hp
      end.
      congruence. }
    now destruct (finalize_escrow W iso_now req s).
  - destruct (sync_outputs_tables W req s) as (_ & _ & _ & _ & E & _).
    destruct (sync_outputs W req s). simpl in *. now rewrite E.
  - destruct (sign_refund_tables W req s) as (_ & _ & _ & _ & E & _).
    destruct (sign_refund W req s). simpl in *. now rewrite E.
  - destruct (sign_payout_tables W req s) as (_ & _ & _ & _ & E & _).
    destruct (sign_payout W req s). simpl in *. now rewrite E.
  - simpl. unfold cleanup. now rewrite cleanup_fold_activeWallets.
Qed.

(** X5.  On the running server a bounty record never changes: whatever
    events follow, the registry holds under the id the record it held. *)
Theorem bounty_record_immutable es : forall s id info,
  reachable W s ->
  JsMap.get id (bountyData s) = Some info ->
  JsMap.get id (bountyData (snd (run W es s))) = Some info.
Proof.
  induction es as [|e rest IH]; cbn [run]; intros s id info Hr Hget; auto.
  pose proof (step_record_kept e s id info (reachable_wf W s Hr) Hget) as H1.
  pose proof (reach_step W e s Hr) as Hr1.
  destruct (step W e s) as [r s1]. simpl in H1, Hr1.
  specialize (IH s1 id info Hr1 H1). now destruct (run W rest s1).
Qed.

(** X6.  On the running server a resident wallet stays resident under its
    id and is never deleted, whatever events follow (the timer
    included). *)
Theorem resident_wallet_kept es : forall s id w,
  reachable W s ->
  JsMap.get id (activeWallets s) = Some w ->
  JsMap.get id (activeWallets (snd (run W es s))) = Some w
  /\ ~ In w (deleted (snd (run W es s))).
Proof.
  induction es as [|e rest IH]; cbn [run]; intros s id w Hr Hget.
  - split; auto. now apply (ro_resident _ (reachable_ro W s Hr) id w).
  - pose proof (step_resident_kept e s id w (reachable_wf W s Hr)
                  (reachable_ro W s Hr) Hget) as H1.
    pose proof (reach_step W e s Hr) as Hr1.
    destruct (step W e s) as [r s1]. simpl in H1, Hr1.
    specialize (IH s1 id w Hr1 H1). now destruct (run W rest s1).
Qed.

(** X7.  [sync-outputs], [sign-refund] and [sign-payout] change at most
    the state of the engine and the console: the flag, the allocator, the
    three maps, the file and the record of deletions are as before,
    whatever the request and the engine's answers. *)
Theorem signing_routes_touch_no_table s :
  (forall req, same_tables s (snd (sync_outputs W req s)))
  /\ (forall req, same_tables s (snd (sign_refund W req s)))
  /\ (forall req, same_tables s (snd (sign_payout W req s))).
Proof.
  split; [|split]; intros req.
  - apply sync_outputs_tables.
  - apply sign_refund_tables.
  - apply sign_payout_tables.
Qed.

Lemma init_escrow_status now req s :
  isInitialized s = true ->
  In (status (fst (init_escrow W now req s))) running_statuses.
Proof.
  intros Hinit. unfold init_escrow, catch, running_statuses. rewrite Hinit.
  cbn [negb]. repeat break_match; simpl; tauto.
Qed.

Lemma finalize_escrow_status iso_now req s :
  isInitialized s = true ->
  In (status (fst (finalize_escrow W iso_now req s))) running_statuses.
Proof.
  intros Hinit. unfold finalize_escrow, catch, running_statuses.
  rewrite Hinit. cbn [negb]. repeat break_match; simpl; tauto.
Qed.

Lemma sync_outputs_status req s :
  isInitialized s = true ->
  In (status (fst (sync_outputs W req s))) running_statuses.
Proof.
  intros Hinit. unfold sync_outputs, catch, running_statuses.
  rewrite Hinit. cbn [negb]. repeat break_match; simpl; tauto.
Qed.

Lemma signed_status k bounty_id tx w s :
  In (status (fst (describe_and_sign W k bounty_id tx w s))) running_statuses.
Proof.
  pose proof (describe_and_sign_status W k bounty_id tx w s) as H.
  unfold running_statuses. simpl in *. tauto.
Qed.

Lemma sign_refund_status req s :
  isInitialized s = true ->
  In (status (fst (sign_refund W req s))) running_statuses.
Proof.
  intros Hinit. unfold sign_refund. rewrite Hinit. cbn [negb].
  repeat break_match; try apply signed_status;
    unfold running_statuses; simpl; tauto.
Qed.

Lemma sign_payout_status req s :
  isInitialized s = true ->
  In (status (fst (sign_payout W req s))) running_statuses.
Proof.
  intros Hinit. unfold sign_payout. rewrite Hinit. cbn [negb].
  repeat break_match; try apply signed_status;
    unfold running_statuses; simpl; tauto.
Qed.

(** X8.  Once the server listens no route answers 503: the status of
    every response is 200, 400, 403, 404, 409, 500 or 501, and only
    [sign-refund] can answer 403. *)
Theorem running_server_statuses s e r :
  reachable W s ->
  fst (step W e s) = Some r ->
  In (status r) running_statuses
  /\ (status r = 403 -> exists req, e = SignRefund req).
Proof.
  intros Hr. pose proof (wf_initialized _ (reachable_wf W s Hr)) as Hinit.
  destruct e; cbn [step].
  - intros [= <-]. split; [unfold running_statuses; simpl; tauto | discriminate].
  - pose proof (init_escrow_status now req s Hinit) as H.
    destruct (init_escrow W now req s) as [r0 s0] eqn:E. simpl in *.
    intros [= <-]. split; auto. intros H403. exfalso.
    revert E H403. unfold init_escrow, catch. rewrite Hinit. cbn [negb].
    repeat break_match; intros [= <- <-]; discriminate.
  - pose proof (finalize_escrow_status iso_now req s Hinit) as H.
    destruct (finalize_escrow W iso_now req s) as [r0 s0] eqn:E. simpl in *.
    intros [= <-]. split; auto. intros H403. exfalso.
    revert E H403. unfold finalize_escrow, catch. rewrite Hinit. cbn [negb].
    repeat break_match; intros [= <- <-]; discriminate.
  - pose proof (sync_outputs_status req s Hinit) as H.
    destruct (sync_outputs W req s) as [r0 s0] eqn:E. simpl in *.
    intros [= <-]. split; auto. intros H403. exfalso.
    revert E H403. unfold sync_outputs, catch. rewrite Hinit. cbn [negb].
    repeat break_match; intros [= <- <-]; discriminate.
  - pose proof (sign_refund_status req s Hinit) as H.
    destruct (sign_refund W req s) as [r0 s0] eqn:E. simpl in *.
    intros [= <-]. split; auto. intros _. now exists req.
  - pose proof (sign_payout_status req s Hinit) as H.
    destruct (sign_payout W req s) as [r0 s0] eqn:E. simpl in *.
    intros [= <-]. split; auto. intros H403. exfalso.
    revert E H403. unfold sign_payout. rewrite Hinit. cbn [negb].
    repeat break_match; try (intros [= <- <-]; discriminate).
    all: intros E H403;
      match type of E with
      | describe_and_sign W ?k ?b ?t ?w ?x = _ =>
          pose proof (describe_and_sign_status W k b t w x) as Hs;
          rewrite E in Hs; simpl in Hs; rewrite H403 in Hs
      end;
      destruct Hs as [Hs|[Hs|[Hs|[]]]]; discriminate.
  - unfold get_bounty. intros [= <-].
    repeat break_match; unfold running_statuses; simpl; split;
      try tauto; discriminate.
  - intros [= <-]. split; [unfold running_statuses; simpl; tauto | discriminate].
  - discriminate.
Qed.

End Safety.

(** ** Payout, synchronisation and the sweep *)

Section Routes.
Context {G : Type} (W : WasmModule G).
Implicit Types (s : state G).

(** The describe-then-sign sequence does not read the console. *)
Lemma describe_and_sign_logged k bounty_id tx w line s :
  fst (describe_and_sign W k bounty_id tx w (log line s)) =
  fst (describe_and_sign W k bounty_id tx w s).
Proof.
  unfold describe_and_sign, catch. simpl.
  destruct (has_describe_multisig_tx_hex W).
  - destruct (describe_multisig_tx_hex W (wasm s) w tx)
      as [[desc|message] g1]; [|reflexivity].
    destruct (has_sign_multisig_tx_hex W); [|reflexivity].
    simpl.
    now destruct (sign_multisig_tx_hex W g1 w tx)
      as [[[signed|error]|message] g2].
  - destruct (has_sign_multisig_tx_hex W); [|reflexivity].
    simpl.
    now destruct (sign_multisig_tx_hex W (wasm s) w tx)
      as [[[signed|error]|message] g2].
Qed.

(** X9.  [sign-payout] has no gate of its own: on an initialized server,
    for a non-empty id with a bounty record and a resident wallet and a
    non-empty payload, its response is that of the describe-then-sign
    sequence on the wallet, whatever the record's deadline and whatever
    reason is given or left out; it is never 403. *)
Theorem sign_payout_ungated s id tx info w reason :
  isInitialized s = true -> id <> "" -> tx <> "" ->
  JsMap.get id (bountyData s) = Some info ->
  JsMap.get id (activeWallets s) = Some w ->
  fst (sign_payout W (mkPayoutBody (Some id) (Some tx) reason) s) =
  fst (describe_and_sign W Payout id tx w s)
  /\ status (fst (sign_payout W (mkPayoutBody (Some id) (Some tx) reason) s))
     <> 403.
Proof.
  intros Hinit Hid Htx Hinfo Hw.
  apply String.eqb_neq in Hid, Htx.
  assert (E : fst (sign_payout W (mkPayoutBody (Some id) (Some tx) reason) s)
              = fst (describe_and_sign W Payout id tx w s)).
  { unfold sign_payout. simpl.
    rewrite Hinit, Hid, Htx, Hinfo, Hw. simpl.
    apply describe_and_sign_logged. }
  split; [exact E|]. rewrite E.
  pose proof (describe_and_sign_status W Payout id tx w s) as H.
  simpl in H. intros H403. rewrite H403 in H.
  destruct H as [H|[H|[H|[]]]]; discriminate.
Qed.

(** X12.  [sync-outputs] fails as a whole in two cases, on an initialized
    server with a record and a resident wallet.  When the export returns
    [success: false] the answer is 500 with "Failed to export multisig
    info: " and the reason, and the import is not attempted.  When the
    export succeeds and the import of a supplied array throws, the answer
    is 500 with the message of the exception: the exported payload is not
    returned. *)
Theorem sync_outputs_fatal_failures s id info w :
  isInitialized s = true -> id <> "" ->
  JsMap.get id (bountyData s) = Some info ->
  JsMap.get id (activeWallets s) = Some w ->
  (forall reason g1 other,
     export_multisig_info W (wasm s) w = (Returned (Failure reason), g1) ->
     fst (sync_outputs W (mkSyncBody (Some id) other) s) =
     mkResponse 500
       (JObj [("error",
               JStr ("Failed to export multisig info: " ++ reason))])
     /\ wasm (snd (sync_outputs W (mkSyncBody (Some id) other) s)) = g1)
  /\ (forall exported g1 other message g2,
      export_multisig_info W (wasm s) w = (Returned (Success exported), g1) ->
      import_multisig_info W g1 w other = (Threw message, g2) ->
      fst (sync_outputs W (mkSyncBody (Some id) (Some other)) s) =
      mkResponse 500 (JObj [("error", JStr message)])
      /\ wasm (snd (sync_outputs W (mkSyncBody (Some id) (Some other)) s))
         = g2).
Proof.
  intros Hinit Hid Hinfo Hw. apply String.eqb_neq in Hid.
  split.
  - intros reason g1 other Hexport. unfold sync_outputs, catch. simpl.
    rewrite Hinit, Hid, Hinfo, Hw, Hexport. simpl. auto.
  - intros exported g1 other message g2 Hexport Himport.
    unfold sync_outputs, catch. simpl.
    rewrite Hinit, Hid, Hinfo, Hw, Hexport. simpl.
    rewrite Himport. simpl. auto.
Qed.

Lemma cleanup_fold_fresh now l : forall s,
  (forall e, In e l -> stale now (snd e) = false) ->
  fold_left (cleanup_entry W now) l s = s.
Proof.
  induction l as [|[id escrow] rest IH]; cbn [fold_left]; intros s Hl; auto.
  assert (Hhere : stale now escrow = false)
    by (apply (Hl (id, escrow)); now left).
  unfold cleanup_entry at 2. unfold stale in Hhere. rewrite Hhere.
  apply IH. intros e He. apply Hl. now right.
Qed.

(** X11.  On the running server a run of the timer that finds no stale
    entry changes nothing, and a second run at the same time changes
    nothing after the first: the sweep is idempotent. *)
Theorem cleanup_idempotent s now :
  reachable W s ->
  ((forall id escrow,
      JsMap.get id (pendingEscrows s) = Some escrow ->
      now - p_created_at escrow <= PENDING_TTL_MS) ->
   cleanup W now s = s)
  /\ cleanup W now (cleanup W now s) = cleanup W now s.
Proof.
  intros Hr. pose proof (reachable_wf W s Hr) as Hwf.
  split.
  - intros Hyoung. unfold cleanup. apply cleanup_fold_fresh.
    intros [id escrow] He. simpl.
    apply (In_get _ _ _ (wf_pending_keys _ Hwf)) in He.
    specialize (Hyoung id escrow He). unfold stale.
    destruct (now - p_created_at escrow >? PENDING_TTL_MS) eqn:E; auto.
    apply Z.gtb_lt in E. lia.
  - pose proof (cleanup_wf W now s Hwf) as Hwf'.
    unfold cleanup at 1. apply cleanup_fold_fresh.
    intros [id escrow] He. simpl.
    apply (In_get _ _ _ (wf_pending_keys _ Hwf')) in He.
    unfold cleanup in He. rewrite cleanup_fold_get in He.
    destruct (existsb _ (pendingEscrows s)) eqn:E; [discriminate|].
    destruct (stale now escrow) eqn:Hst; auto.
    assert (Hex : existsb
                    (fun e : string * pendingEscrow =>
                       String.eqb id (fst e) && stale now (snd e))
                    (pendingEscrows s) = true).
    { apply existsb_exists. exists (id, escrow). split.
      - now apply get_In.
      - simpl. now rewrite String.eqb_refl, Hst. }
    congruence.
Qed.

(** X13.  On the running server the counts that [GET /health] reports
    follow the sessions: a successful [finalize-escrow] lowers the number
    of pending escrows by one and raises the number of completed bounties
    by one; a successful [init-escrow] raises the number of pending
    escrows by one for a new id and leaves it as it was for an id that was
    pending. *)
Theorem health_counts s :
  reachable W s ->
  (forall iso_now req r s',
     finalize_escrow W iso_now req s = (r, s') -> status r = 200 ->
     health s' =
     mkResponse 200
       (JObj [("status", JStr "ok");
              ("initialized", JBool true);
              ("pendingEscrows", JNum (JsMap.size (pendingEscrows s) - 1));
              ("completedBounties", JNum (JsMap.size (bountyData s) + 1))]))
  /\ (forall now id r s',
      init_escrow W now (mkInitBody (Some id)) s = (r, s') ->
      status r = 200 ->
      JsMap.size (bountyData s') = JsMap.size (bountyData s)
      /\ JsMap.size (pendingEscrows s') =
         JsMap.size (pendingEscrows s)
         + (if JsMap.has id (pendingEscrows s) then 0 else 1)).
Proof.
  intros Hr. pose proof (reachable_wf W s Hr) as Hwf.
  pose proof (wf_initialized _ Hwf) as Hinit.
  split.
  - unfold finalize_escrow. intros iso_now req r s' Hrun Hok.
    rewrite Hinit in Hrun. cbn [negb] in Hrun.
    destruct (finalize_missing req);
      [inversion Hrun; subst; discriminate|].
    destruct (JsMap.get (str_val (fb_bounty_id req)) (pendingEscrows s))
      as [p|] eqn:Hp; [|inversion Hrun; subst; discriminate].
    cbv zeta in Hrun.
    destruct (make_multisig W _ _ _ _ _) as [[[round2|error]|message] g1];
      try (inversion Hrun; subst; discriminate).
    destruct (exchange_multisig_keys W _ _ _ _)
      as [[[kex|error]|message] g2];
      try (inversion Hrun; subst; discriminate).
    inversion Hrun; subst r s'. clear Hrun.
    unfold health. simpl. rewrite Hinit.
    rewrite (length_delete_present _ p _ (wf_pending_keys _ Hwf) Hp).
    rewrite length_set_absent; auto.
    apply (wf_disjoint _ Hwf). eapply get_keys; eauto.
  - unfold init_escrow. intros now id r s' Hrun Hok.
    rewrite Hinit in Hrun. cbn [negb] in Hrun.
    destruct (not_str (ib_bounty_id (mkInitBody (Some id))));
      [inversion Hrun; subst; discriminate|].
    simpl str_val in Hrun.
    destruct (JsMap.has id (bountyData s)) eqn:Hb;
      [inversion Hrun; subst; discriminate|].
    cbv zeta in Hrun.
    destruct (prepare_multisig W _ _) as [[[round1|error]|message] g4];
      inversion Hrun; subst; try discriminate.
    clear Hrun. unfold JsMap.has.
    destruct (JsMap.get id (pendingEscrows s)) as [old|] eqn:Hp; simpl.
    + split; [reflexivity|].
      rewrite length_set_absent by apply get_delete_eq.
      rewrite (length_delete_present _ old _ (wf_pending_keys _ Hwf) Hp).
      lia.
    + split; [reflexivity|]. now rewrite length_set_absent.
Qed.

End Routes.

(** ** Restart and recovery *)

Section Recovery.
Context {G : Type} (W : WasmModule G).
Implicit Types (s : state G).

(** X10.  The running server is stopped in any state and started again
    on its data directory.  Every bounty record is found again under its
    id (the id [__proto__] apart, which [data[id] = info] does not store
    as a member of the object that is written); no pending escrow and no
    resident wallet survives: [finalize-escrow] answers 404 for every
    well-formed request, and [sync-outputs], [sign-payout] and, at or
    past the deadline, [sign-refund] answer 400 "Wallet not in memory"
    for the id of a record. *)
Theorem restart_keeps_registry_only s (g : G) :
  reachable W s ->
  reachable W (restart g s)
  /\ (forall id, id <> "__proto__" ->
      JsMap.get id (bountyData (restart g s)) = JsMap.get id (bountyData s))
  /\ pendingEscrows (restart g s) = []
  /\ activeWallets (restart g s) = []
  /\ (forall iso_now req,
      finalize_missing req = false ->
      finalize_escrow W iso_now req (restart g s) =
      (mkResponse 404
         (JObj [("error",
                 JStr "Pending escrow not found. Call /init-escrow first.");
                ("hint",
                 JStr "The escrow may have expired (5 min timeout) or server restarted.")]),
       restart g s))
  /\ (forall id info tx,
      id <> "" -> id <> "__proto__" -> tx <> "" ->
      JsMap.get id (bountyData s) = Some info ->
      let absent :=
        mkResponse 400
          (JObj [("error",
                  JStr "Wallet not in memory. Use CLI for manual recovery.");
                 ("hint",
                  JStr ("docker exec salvium-guardian node cli.js export-bounty-seed " ++ id))]) in
      (forall other,
         sync_outputs W (mkSyncBody (Some id) other) (restart g s)
         = (absent, restart g s))
      /\ (forall reason,
          sign_payout W (mkPayoutBody (Some id) (Some tx) reason) (restart g s)
          = (absent, restart g s))
      /\ (forall current_block,
          current_block >= deadline_block info ->
          sign_refund W (mkRefundBody (Some id) (Some current_block) (Some tx))
            (restart g s)
          = (absent, restart g s))).
Proof.
  intros Hr. pose proof (reachable_ro W s Hr) as Hro.
  assert (Hload : bountyData (restart g s) = bountyData s)
    by apply (ro_file _ Hro).
  split; [apply reach_boot|].
  split; [intros id _; now rewrite Hload|].
  split; [reflexivity|]. split; [reflexivity|].
  split.
  - intros iso_now req Hmiss. unfold finalize_escrow.
    rewrite Hmiss. reflexivity.
  - intros id info tx Hid _ Htx Hinfo absent.
    apply String.eqb_neq in Hid, Htx.
    split; [|split].
    + intros other. unfold sync_outputs. rewrite Hload. simpl.
      now rewrite Hid, Hinfo.
    + intros reason. unfold sign_payout. rewrite Hload. simpl.
      now rewrite Hid, Htx, Hinfo.
    + intros current_block Hge. unfold sign_refund, refund_missing.
      rewrite Hload. simpl. rewrite Hid, Htx, Hinfo. simpl.
      assert (Hnlt : (current_block <? deadline_block info) = false)
        by (apply Z.ltb_ge; lia).
      now rewrite Hnlt.
Qed.

(** X14.  The tool's [export-bounty-seed], run on the file of the running
    server in any state: for an id with a bounty record (the id
    [__proto__] apart) it prints the heading and the stored
    [wallet_mnemonic] and ends with code 0; for an id without a record
    that is no member of [Object.prototype], an id that is only pending
    included, it writes "Bounty <id> not found." to the error stream and
    ends with code 1; for an id without a record that names a member of
    [Object.prototype] it prints the heading and [undefined] and ends
    with code 0. *)
Theorem export_bounty_seed_reads_registry s id :
  reachable W s -> id <> "__proto__" ->
  (forall info,
     JsMap.get id (bountyData s) = Some info ->
     cmdExportBountySeed id (bounties_json s) =
     mkCli ["=== Bounty " ++ id ++ " Seed ==="; "";
            "WARNING: Keep this secret!"; ""; wallet_mnemonic info] [] 0)
  /\ (JsMap.get id (bountyData s) = None ->
      ~ In id Object_prototype_names ->
      cmdExportBountySeed id (bounties_json s) =
      mkCli [] ["Bounty " ++ id ++ " not found."] 1)
  /\ (JsMap.get id (bountyData s) = None ->
      In id Object_prototype_names ->
      cmdExportBountySeed id (bounties_json s) =
      mkCli ["=== Bounty " ++ id ++ " Seed ==="; "";
             "WARNING: Keep this secret!"; ""; "undefined"] [] 0).
Proof.
  intros Hr _. pose proof (ro_file _ (reachable_ro W s Hr)) as Hload.
  unfold cmdExportBountySeed, loadBounties, lookup_member. rewrite Hload.
  split; [|split].
  - intros info Hinfo. now rewrite Hinfo.
  - intros Hnone Hnot. rewrite Hnone.
    destruct (existsb (String.eqb id) Object_prototype_names) eqn:E; auto.
    apply existsb_exists in E. destruct E as [x [Hx Hxe]].
    apply String.eqb_eq in Hxe. subst x. tauto.
  - intros Hnone Hin. rewrite Hnone.
    replace (existsb (String.eqb id) Object_prototype_names) with true; auto.
    symmetry. apply existsb_exists. exists id. split; auto.
    apply String.eqb_refl.
Qed.

End Recovery.

(** ** Concrete runs for the further properties *)

Module MoreRuns.
Import TestDouble.


Lemma init_escrow_engine_failure_witness :
  (exists s',
     init_escrow Faulty.refusing 2000 b1 begun =
     (mkResponse 500
        (JObj [("error", JStr "Failed to prepare multisig: no entropy")]), s')
     /\ JsMap.get "b1" (pendingEscrows s') = None
     /\ deleted s' = [0%nat; 1%nat]
     /\ next_wallet s' = 2%nat)
  /\ (exists s',
      init_escrow Faulty.aborting 2000 b1 begun =
      (mkResponse 500 (JObj [("error", JStr "abort")]), s')
      /\ JsMap.get "b1" (pendingEscrows s') = None
      /\ deleted s' = [0%nat]
      /\ next_wallet s' = 2%nat).
Proof.
  split.
  - exact (proj1 (init_escrow_engine_failure Faulty.refusing begun 2000 "b1"
                    eq_refl ltac:(discriminate) eq_refl)
             "no entropy" 9%nat eq_refl).
  - exact (proj2 (init_escrow_engine_failure Faulty.aborting begun 2000 "b1"
                    eq_refl ltac:(discriminate) eq_refl)
             "abort" 9%nat eq_refl).
Defined.

Lemma get_bounty_follows_witness :
  get_bounty "b1" begun =
  mkResponse 200
    (JObj [("bounty_id", JStr "b1");
           ("status", JStr "pending");
           ("message", JStr "Waiting for /finalize-escrow")])
  /\ exists round1 round2 address ready,
       fst (finalize_escrow engine "2026-01-01T00:00:00.000Z"
              (finalize_b1 1000000 "s1") begun)
       = mkResponse 200
           (JObj [("success", JBool true);
                  ("bounty_id", JStr "b1");
                  ("guardian_round1", JStr round1);
                  ("guardian_round2", JStr round2);
                  ("multisig_address", JStr address);
                  ("is_ready", JBool ready)])
       /\ get_bounty "b1" finalized =
          mkResponse 200
            (JObj [("bounty_id", JStr "b1");
                   ("deadline_block", JNum 1000000);
                   ("multisig_address", JStr address);
                   ("is_ready", JBool ready);
                   ("created_at", JStr "2026-01-01T00:00:00.000Z");
                   ("wallet_in_memory", JBool true)]).
Proof.
  split.
  - exact (proj1 (get_bounty_follows engine (boot 0%nat []) "b1")
             1000 _ begun eq_refl eq_refl).
  - exact (proj2 (get_bounty_follows engine begun "b1")
             "2026-01-01T00:00:00.000Z" (finalize_b1 1000000 "s1")
             _ finalized eq_refl eq_refl eq_refl).
Defined.

Lemma no_wallet_deleted_twice_witness :
  NoDup (deleted (snd (run engine [InitEscrow 2000 b1; Cleanup 400000] begun)))
  /\ (forall h,
      In h (deleted (snd (run engine [InitEscrow 2000 b1; Cleanup 400000]
                            begun))) ->
      (h < next_wallet (snd (run engine [InitEscrow 2000 b1; Cleanup 400000]
                               begun)))%nat).
Proof.
  exact (no_wallet_deleted_twice engine _
           (reachable_run engine [InitEscrow 2000 b1; Cleanup 400000] begun
              Runs.reachable_begun)).
Defined.

Lemma bounty_record_immutable_witness :
  JsMap.get "b1"
    (bountyData
       (snd (run engine
               [InitEscrow 5 b1;
                FinalizeEscrow "later" (finalize_b1 7 "s1");
                Cleanup 999999]
               finalized)))
  = Some b1_info.
Proof.
  exact (bounty_record_immutable engine
           [InitEscrow 5 b1; FinalizeEscrow "later" (finalize_b1 7 "s1");
            Cleanup 999999]
           finalized "b1" b1_info Runs.reachable_finalized eq_refl).
Defined.

Lemma resident_wallet_kept_witness :
  JsMap.get "b1"
    (activeWallets
       (snd (run engine
               [InitEscrow 5 (mkInitBody (Some "b2")); Cleanup 999999;
                SignRefund (refund_b1 1000000)]
               finalized)))
  = Some 0%nat
  /\ ~ In 0%nat
        (deleted
           (snd (run engine
                   [InitEscrow 5 (mkInitBody (Some "b2")); Cleanup 999999;
                    SignRefund (refund_b1 1000000)]
                   finalized))).
Proof.
  exact (resident_wallet_kept engine
           [InitEscrow 5 (mkInitBody (Some "b2")); Cleanup 999999;
            SignRefund (refund_b1 1000000)]
           finalized "b1" 0%nat Runs.reachable_finalized eq_refl).
Defined.

Lemma running_server_statuses_witness :
  In 403 running_statuses
  /\ (403 = 403 -> exists req, SignRefund (refund_b1 100) = SignRefund req).
Proof.
  exact (running_server_statuses engine finalized (SignRefund (refund_b1 100))
           (mkResponse 403
              (JObj [("error", JStr "Deadline not reached");
                     ("current_block", JNum 100);
                     ("deadline_block", JNum 1000000);
                     ("blocks_remaining", JNum 999900)]))
           Runs.reachable_finalized eq_refl).
Defined.

Lemma sign_payout_ungated_witness :
  fst (sign_payout engine
         (mkPayoutBody (Some "b1") (Some "ab") (Some "worker was right"))
         finalized)
  = fst (describe_and_sign engine Payout "b1" "ab" 0%nat finalized)
  /\ status (fst (sign_payout engine
                    (mkPayoutBody (Some "b1") (Some "ab")
                       (Some "worker was right")) finalized)) <> 403.
Proof.
  exact (sign_payout_ungated engine finalized "b1" "ab" b1_info 0%nat
           (Some "worker was right") eq_refl
           ltac:(discriminate) ltac:(discriminate) eq_refl eq_refl).
Defined.

Lemma restart_keeps_registry_only_witness :
  JsMap.get "b1" (bountyData (restart 0%nat finalized)) = Some b1_info
  /\ pendingEscrows (restart 0%nat begun) = []
  /\ finalize_escrow engine "t" (finalize_b1 7 "s1") (restart 0%nat begun) =
     (mkResponse 404
        (JObj [("error",
                JStr "Pending escrow not found. Call /init-escrow first.");
               ("hint",
                JStr "The escrow may have expired (5 min timeout) or server restarted.")]),
      restart 0%nat begun)
  /\ sign_refund engine (refund_b1 1000000) (restart 0%nat finalized) =
     (mkResponse 400
        (JObj [("error",
                JStr "Wallet not in memory. Use CLI for manual recovery.");
               ("hint",
                JStr "docker exec salvium-guardian node cli.js export-bounty-seed b1")]),
      restart 0%nat finalized).
Proof.
  pose proof (restart_keeps_registry_only engine finalized 0%nat
                Runs.reachable_finalized) as (_ & Hget & _ & _ & _ & Hsign).
  pose proof (restart_keeps_registry_only engine begun 0%nat
                Runs.reachable_begun) as (_ & _ & Hp & _ & Hfin & _).
  split; [|split; [|split]].
  - rewrite (Hget "b1"); [reflexivity | discriminate].
  - exact Hp.
  - apply Hfin. reflexivity.
  - apply (Hsign "b1" b1_info "ab"); try discriminate; reflexivity.
Defined.

Lemma cleanup_idempotent_witness :
  cleanup engine 2000 begun = begun
  /\ cleanup engine 400000 (cleanup engine 400000 begun)
     = cleanup engine 400000 begun.
Proof.
  pose proof (cleanup_idempotent engine begun 2000 Runs.reachable_begun)
    as [Hfresh _].
  pose proof (cleanup_idempotent engine begun 400000 Runs.reachable_begun)
    as [_ Htwice].
  split; [|exact Htwice].
  apply Hfresh. intros id escrow Hget.
  destruct (String.eqb id "b1") eqn:E.
  - apply String.eqb_eq in E. subst id. inversion Hget. discriminate.
  - simpl in Hget. rewrite E in Hget. discriminate.
Defined.

Lemma sync_outputs_fatal_failures_witness :
  fst (sync_outputs Faulty.garbling (mkSyncBody (Some "b1") (Some ["x"]))
         finalized)
  = mkResponse 500 (JObj [("error", JStr "Unexpected token")])
  /\ wasm (snd (sync_outputs Faulty.garbling
                  (mkSyncBody (Some "b1") (Some ["x"])) finalized))
     = 8%nat.
Proof.
  exact (proj2 (sync_outputs_fatal_failures Faulty.garbling finalized "b1"
                  b1_info 0%nat eq_refl ltac:(discriminate) eq_refl eq_refl)
           "export-0" 7%nat ["x"] "Unexpected token" 8%nat eq_refl eq_refl).
Defined.

Lemma health_counts_witness :
  health finalized =
  mkResponse 200
    (JObj [("status", JStr "ok");
           ("initialized", JBool true);
           ("pendingEscrows", JNum 0);
           ("completedBounties", JNum 1)])
  /\ JsMap.size (pendingEscrows begun) = 1.
Proof.
  split.
  - exact (proj1 (health_counts engine begun Runs.reachable_begun)
             "2026-01-01T00:00:00.000Z" (finalize_b1 1000000 "s1")
             _ finalized eq_refl eq_refl).
  - exact (proj2 (proj2 (health_counts engine (boot 0%nat [])
                           (reach_boot engine 0%nat []))
                    1000 "b1" _ begun eq_refl eq_refl)).
Defined.

Lemma export_bounty_seed_reads_registry_witness :
  cmdExportBountySeed "b1" (bounties_json finalized) =
  mkCli ["=== Bounty b1 Seed ==="; ""; "WARNING: Keep this secret!"; "";
         "seed-0"] [] 0
  /\ cmdExportBountySeed "b1" (bounties_json begun) =
     mkCli [] ["Bounty b1 not found."] 1
  /\ cmdExportBountySeed "constructor" (bounties_json finalized) =
     mkCli ["=== Bounty constructor Seed ==="; "";
            "WARNING: Keep this secret!"; ""; "undefined"] [] 0.
Proof.
  split; [|split].
  - exact (proj1 (export_bounty_seed_reads_registry engine finalized "b1"
                    Runs.reachable_finalized ltac:(discriminate))
             b1_info eq_refl).
  - apply (proj1 (proj2 (export_bounty_seed_reads_registry engine begun "b1"
                           Runs.reachable_begun ltac:(discriminate))));
      [reflexivity|].
    simpl. intros H.
    repeat (destruct H as [H|H]; [discriminate|]). exact H.
  - apply (proj2 (proj2 (export_bounty_seed_reads_registry engine finalized
                           "constructor" Runs.reachable_finalized
                           ltac:(discriminate))));
      [reflexivity | simpl; tauto].
Defined.

End MoreRuns.
